(** * A1 range notation in [gsheets/sheets_tools.py]

    A shallow embedding of the two helpers [_convert_indices_to_a1] and
    [_parse_a1_to_indices], of the merge-overlap test of
    [read_sheet_values] and of the cell counts reported by [format_cells]
    and [add_data_validation], followed by the properties of the
    range-notation codec that hold (or fail) on that code. *)

From Stdlib Require Import ZArith List Bool Ascii String Lia.
From Stdlib Require Import DecimalString DecimalPos DecimalZ.
Import ListNotations.

Local Open Scope Z_scope.

(** ** Python text *)

Module PyStr.

(** A Python [str] is a sequence of Unicode code points.  [ord] is the
    code point of a character; [chr n] raises [ValueError] unless
    [0 <= n < 0x110000]. *)
Definition char := Z.
Definition str := list char.

Definition ord (c : char) : Z := c.

Definition chr (n : Z) : option char :=
  if (0 <=? n) && (n <? 1114112) then Some n else None.

(** String literals of this file are written as Rocq strings and read as
    the code points of their characters (all below 256). *)
Definition py (s : string) : str :=
  map (fun a => Z.of_N (N_of_ascii a)) (list_ascii_of_string s).

(** The decimal digits (category Nd) of Unicode 14.0, the table of
    CPython 3.11: 66 runs of ten consecutive code points that are worth 0
    to 9.  [nd_starts] lists the first code point of every run. *)
Definition nd_starts : list Z :=
  [48; 1632; 1776; 1984; 2406; 2534; 2662; 2790; 2918; 3046; 3174; 3302;
   3430; 3558; 3664; 3792; 3872; 4160; 4240; 6112; 6160; 6470; 6608; 6784;
   6800; 6992; 7088; 7232; 7248; 42528; 43216; 43264; 43472; 43504; 43600;
   44016; 65296; 66720; 68912; 69734; 69872; 69942; 70096; 70384; 70736;
   70864; 71248; 71360; 71472; 71904; 72016; 72784; 73040; 73120; 92768;
   92864; 93008; 120782; 120792; 120802; 120812; 120822; 123200; 123632;
   125264; 130032].

(** The value of a decimal digit, [None] for every other character: the
    characters that [\d] matches in a [str] pattern are those that [int]
    reads as digits, with this value. *)
Definition digit_value (c : char) : option Z :=
  match find (fun s => (s <=? c) && (c <? s + 10)) nd_starts with
  | Some s => Some (c - s)
  | None => None
  end.

(** [sys.int_info.default_max_str_digits]: the interpreter refuses to
    convert an integer to or from a decimal text of more digits. *)
Definition max_str_digits : Z := 4300.

(** The decimal text of an integer: a minus sign for a negative number,
    then the digits without leading zeros. *)
Definition repr_int (n : Z) : str :=
  py (NilZero.string_of_int (Z.to_int n)).

(** [str(n)], as an f-string field [{n}] makes it; [None] stands for the
    [ValueError] raised when [n] has more than [max_str_digits] digits. *)
Definition str_of_int (n : Z) : option str :=
  if max_str_digits <? Z.of_nat (List.length (repr_int (Z.abs n)))
  then None
  else Some (repr_int n).

(** [int(text)] on a text made of decimal digits (the only texts the
    parser passes to [int] are [\d+] groups): [int_of_digits] is the
    value, leading zeros allowed, and [int_raises] tells when [int] raises
    [ValueError] instead, which it does for more than [max_str_digits]
    digits, leading zeros counted. *)
Definition digit_of (c : char) : Z :=
  match digit_value c with
  | Some d => d
  | None => 0
  end.

Definition int_of_digits (text : str) : Z :=
  fold_left (fun acc c => 10 * acc + digit_of c) text 0.

Definition int_raises (text : str) : bool :=
  max_str_digits <? Z.of_nat (List.length text).

(** [sep in s] together with [s.split(sep, 1)]: [None] when [sep] does
    not occur, otherwise the text before the first occurrence and the
    text after it. *)
Fixpoint split_once (sep : char) (s : str) : option (str * str) :=
  match s with
  | [] => None
  | c :: s' =>
      if c =? sep then Some ([], s')
      else match split_once sep s' with
           | Some (a, b) => Some (c :: a, b)
           | None => None
           end
  end.

(** [sum(...)] adds the items to 0 from left to right. *)
Definition sum (l : list Z) : Z := fold_left Z.add l 0.

(** [enumerate(l)] pairs every item with its position, from 0. *)
Definition enumerate {A} (l : list A) : list (nat * A) :=
  combine (seq 0 (List.length l)) l.

End PyStr.
Import PyStr.

(** ** The two regular expressions of the parser

    [re.match] anchors the pattern at the start of the text and not at
    its end.  The matcher below is the backtracking one of Python's [re]
    for the constructs the two patterns use: a literal character, and a
    greedy capturing group [(cls+)] which takes as many characters of the
    class as it can and gives them back one at a time, down to one, while
    the rest of the pattern (the continuation [k]) fails. *)

Module Re.

(** [[A-Z]] with no flag: the code points 65..90. *)
Definition is_upper (c : char) : bool := (65 <=? c) && (c <=? 90).

(** [\d] in a [str] pattern: every Unicode decimal digit, 0-9 and the
    digits of the other scripts. *)
Definition is_digit (c : char) : bool :=
  match digit_value c with
  | Some _ => true
  | None => false
  end.

Section Matcher.
Context {A : Type}.

(** [g] holds the characters of the group taken so far, [s] is the rest
    of the text. *)
Fixpoint plus_from (cls : char -> bool) (g s : str)
         (k : str -> str -> option A) : option A :=
  match s with
  | c :: s' =>
      if cls c then
        match plus_from cls (g ++ [c]) s' k with
        | Some r => Some r
        | None => k g s
        end
      else k g s
  | [] => k g s
  end.

Definition plus (cls : char -> bool) (s : str)
           (k : str -> str -> option A) : option A :=
  match s with
  | c :: s' => if cls c then plus_from cls [c] s' k else None
  | [] => None
  end.

Definition lit (c : char) (s : str) (k : str -> option A) : option A :=
  match s with
  | c' :: s' => if c' =? c then k s' else None
  | [] => None
  end.
End Matcher.

(** [re.match(r'([A-Z]+)(\d+):([A-Z]+)(\d+)', s)], as [match.groups()]. *)
Definition match_range (s : str) : option (str * str * str * str) :=
  plus is_upper s (fun g1 s1 =>
  plus is_digit s1 (fun g2 s2 =>
  lit 58 s2 (fun s3 =>
  plus is_upper s3 (fun g3 s4 =>
  plus is_digit s4 (fun g4 _ =>
  Some (g1, g2, g3, g4)))))).

(** [re.match(r'([A-Z]+)(\d+)', s)], as its groups 1 and 2. *)
Definition match_cell (s : str) : option (str * str) :=
  plus is_upper s (fun g1 s1 =>
  plus is_digit s1 (fun g2 _ =>
  Some (g1, g2))).

End Re.

(** ** The codec *)

(** The four bounds [start_row, end_row, start_col, end_col] that the
    parser returns next to the sheet name; they are either all [None] or
    all integers. *)
Record Indices := mkIndices {
  start_row : Z;
  end_row : Z;
  start_col : Z;
  end_col : Z
}.

(** [col_to_letter], the local function of [_convert_indices_to_a1]. *)
Definition col_to_letter (col : Z) : option str :=
  if col <? 26 then
    match chr (65 + col) with
    | Some c => Some [c]
    | None => None
    end
  else
    match chr (65 + col / 26 - 1), chr (65 + col mod 26) with
    | Some c1, Some c2 => Some ([c1] ++ [c2])
    | _, _ => None
    end.

(** [_convert_indices_to_a1]; [None] stands for the [ValueError] that
    [chr] or the formatting of a row number raises. *)
Definition _convert_indices_to_a1 (start_row end_row start_col end_col : Z)
  : option str :=
  match col_to_letter start_col with
  | None => None
  | Some start_col_letter =>
      match col_to_letter (end_col - 1) with
      | None => None
      | Some end_col_letter =>
          match str_of_int (start_row + 1), str_of_int end_row with
          | Some first_row, Some last_row =>
              Some (start_col_letter ++ first_row ++ py ":"
                    ++ end_col_letter ++ last_row)
          | _, _ => None
          end
      end
  end.

(** [sum((ord(c) - 65) * (26 ** i) for i, c in enumerate(reversed(col)))],
    the expression the parser uses three times. *)
Definition col_index (col : str) : Z :=
  sum (map (fun ic : nat * char => (ord (snd ic) - 65) * 26 ^ Z.of_nat (fst ic))
           (enumerate (rev col))).

(** The sheet-name step of [_parse_a1_to_indices]: the sheet name and the
    text that is parsed as the range. *)
Definition split_sheet (a1_range : str) : option str * str :=
  match split_once 33 a1_range with
  | Some (sheet_name, rest) => (Some sheet_name, rest)
  | None => (None, a1_range)
  end.

(** The rest of [_parse_a1_to_indices], on the text after the sheet
    name. *)
Definition parse_range (a1_range : str) : option Indices :=
  match Re.match_range a1_range with
  | None =>
      match Re.match_cell a1_range with
      | Some (col, row_text) =>
          let row := int_of_digits row_text in
          let col_idx := col_index col in
          Some (mkIndices (row - 1) row col_idx (col_idx + 1))
      | None => None
      end
  | Some (start_col, start_row, end_col, end_row) =>
      let start_col_idx := col_index start_col in
      let end_col_idx := col_index end_col + 1 in
      Some (mkIndices (int_of_digits start_row - 1) (int_of_digits end_row)
                      start_col_idx end_col_idx)
  end.

(** The tuple that [_parse_a1_to_indices] returns: the sheet name, and
    the four bounds or four [None].  When [int] raises instead, on a row
    number of more than [max_str_digits] digits, is told by
    [parse_raises] below; [parse_a1] is the call with both outcomes. *)
Definition _parse_a1_to_indices (a1_range : str) : option str * option Indices :=
  let (sheet_name, a1_range) := split_sheet a1_range in
  (sheet_name, parse_range a1_range).

(** ** The merge-overlap test of [read_sheet_values] *)

(** A grid range as the Sheets API returns it in [sheets.merges]: a
    dict in which any of the four keys may be missing. *)
Record GridRange := mkGridRange {
  startRowIndex : option Z;
  endRowIndex : option Z;
  startColumnIndex : option Z;
  endColumnIndex : option Z
}.

(** [d.get(key, default)]. *)
Definition get (v : option Z) (default : Z) : Z :=
  match v with
  | Some x => x
  | None => default
  end.

Definition m_start_row (merge : GridRange) : Z := get (startRowIndex merge) 0.
Definition m_end_row (merge : GridRange) : Z := get (endRowIndex merge) 0.
Definition m_start_col (merge : GridRange) : Z := get (startColumnIndex merge) 0.
Definition m_end_col (merge : GridRange) : Z := get (endColumnIndex merge) 0.

(** The condition of the [if] in the loop over [merges]; [parsed] is the
    result of [_parse_a1_to_indices(range_name)], whose bounds are [None]
    when the range was not parsed. *)
Definition merge_overlaps (parsed : option Indices) (merge : GridRange) : bool :=
  match parsed with
  | None => false
  | Some r =>
      (m_start_row merge <? end_row r) && (m_end_row merge >? start_row r)
      && (m_start_col merge <? end_col r) && (m_end_col merge >? start_col r)
  end.

(** An entry of [merged_regions]. *)
Record MergedRegion := mkMergedRegion {
  mr_start_row : Z;
  mr_end_row : Z;
  mr_start_col : Z;
  mr_end_col : Z;
  mr_a1 : str
}.

(** The loop [for merge in merges], started with the regions appended so
    far.  An exception of [_convert_indices_to_a1] leaves the loop: the
    enclosing [try] logs it and [merged_regions] keeps what it had. *)
Fixpoint collect_merges (parsed : option Indices) (merges : list GridRange)
         (merged_regions : list MergedRegion) : list MergedRegion :=
  match merges with
  | [] => merged_regions
  | merge :: rest =>
      if merge_overlaps parsed merge then
        match _convert_indices_to_a1 (m_start_row merge) (m_end_row merge)
                                     (m_start_col merge) (m_end_col merge) with
        | Some a1 =>
            collect_merges parsed rest
              (merged_regions ++
               [mkMergedRegion (m_start_row merge) (m_end_row merge)
                               (m_start_col merge) (m_end_col merge) a1])
        | None => merged_regions
        end
      else collect_merges parsed rest merged_regions
  end.

(** ** The quantities of the spec *)


(** The column value of the spec, [value = sum of letter_i_value * 26^(n-1-i)]
    over the positions [i] of a token of length [n], with A=0 .. Z=25. *)
Definition positional_value (col : str) : Z :=
  let n := List.length col in
  sum (map (fun i => (ord (nth i col 0) - 65) * 26 ^ (Z.of_nat n - 1 - Z.of_nat i))
           (seq 0 n)).

(** ** Definitions used to state and prove the properties *)

(** The weight of the letter [c] at position [i] from the right. *)
Definition weigh (ic : nat * char) : Z :=
  (ord (snd ic) - 65) * 26 ^ Z.of_nat (fst ic).

(** The longest run of [cls] at the start of [s], and the rest. *)
Fixpoint span (cls : char -> bool) (s : str) : str * str :=
  match s with
  | c :: s' =>
      if cls c then let (g, r) := span cls s' in (c :: g, r) else ([], s)
  | [] => ([], [])
  end.

Definition heads (cls : char -> bool) (s : str) : bool :=
  match s with
  | c :: _ => cls c
  | [] => false
  end.

(** The longest non-empty run of [cls] at the start of [s]. *)
Definition take (cls : char -> bool) (s : str) : option (str * str) :=
  match span cls s with
  | ([], _) => None
  | (g, r) => Some (g, r)
  end.

(** The column letters and the row digits at the start of [s], and the
    text after them. *)
Definition scan_cell (s : str) : option (str * str * str) :=
  match take Re.is_upper s with
  | Some (col, s1) =>
      match take Re.is_digit s1 with
      | Some (row, s2) => Some (col, row, s2)
      | None => None
      end
  | None => None
  end.

Definition scan_range (s : str) : option (str * str * str * str) :=
  match scan_cell s with
  | Some (c1, r1, c :: s3) =>
      if c =? 58 then
        match scan_cell s3 with
        | Some (c2, r2, _) => Some (c1, r1, c2, r2)
        | None => None
        end
      else None
  | _ => None
  end.

(** A column token and a row token as the patterns accept them. *)
Definition is_col (col : str) : Prop :=
  col <> [] /\ forallb Re.is_upper col = true.

Definition is_row (row : str) : Prop :=
  row <> [] /\ forallb Re.is_digit row = true.

(** No ['!'] in the text. *)
Definition no_bang (s : str) : bool := forallb (fun c => negb (c =? 33)) s.

(** The lower-case letters a-z. *)
Definition is_lower (c : char) : bool := (97 <=? c) && (c <=? 122).

(** [t] starts with [':'], column letters and a digit, so that after a
    cell it completes the two-corner pattern. *)
Definition continues_range (t : str) : bool :=
  match t with
  | c :: t' =>
      (c =? 58) && match Re.match_cell t' with
                   | Some _ => true
                   | None => false
                   end
  | [] => false
  end.

(** What the parser makes of a column that [col_to_letter] wrote with
    at most two letters. *)
Definition read_back (col : Z) : Z := if col <? 26 then col else col - 26.

(** The column that the parser returns for a text, when it returns one. *)
Definition decoded_col (text : string) : option Z :=
  option_map start_col (snd (_parse_a1_to_indices (py text))).

(** ** The A1 text that [get_spreadsheet_info] writes inline *)

(** [col_letter] and [col_letter_end] of the loops over the named ranges
    and over the merges of [get_spreadsheet_info]. *)
Definition col_letter (start_col : Z) : option str :=
  if start_col <? 26 then
    match chr (65 + start_col) with
    | Some c => Some [c]
    | None => None
    end
  else
    match chr (65 + start_col / 26 - 1), chr (65 + start_col mod 26) with
    | Some c1, Some c2 => Some ([c1] ++ [c2])
    | _, _ => None
    end.

Definition col_letter_end (end_col : Z) : option str :=
  if end_col <=? 26 then
    match chr (65 + end_col - 1) with
    | Some c => Some [c]
    | None => None
    end
  else
    match chr (65 + (end_col - 1) / 26 - 1), chr (65 + (end_col - 1) mod 26) with
    | Some c1, Some c2 => Some ([c1] ++ [c2])
    | _, _ => None
    end.

(** The range text of both loops,
    [{col_letter}{start_row + 1}:{col_letter_end}{end_row}]. *)
Definition info_a1 (start_row end_row start_col end_col : Z) : option str :=
  match col_letter start_col with
  | None => None
  | Some l1 =>
      match col_letter_end end_col with
      | None => None
      | Some l2 =>
          match str_of_int (start_row + 1), str_of_int end_row with
          | Some first_row, Some last_row =>
              Some (l1 ++ first_row ++ py ":" ++ l2 ++ last_row)
          | _, _ => None
          end
      end
  end.

(** ** The sheets of a spreadsheet and the lookup of a sheet id *)

(** The exceptions that the modelled code raises. *)
Inductive exn :=
| KeyError
| IndexError
| TypeError
| ValueError
| SheetNotFound (sheet_name : option str).

Inductive Result (A : Type) :=
| Ok (a : A)
| Raise (e : exn).
Arguments Ok {A} a.
Arguments Raise {A} e.

(** Whether [_parse_a1_to_indices] raises: it does when one of the row
    texts it passes to [int] has more than [max_str_digits] digits. *)
Definition parse_raises (a1_range : str) : bool :=
  let a1_range := snd (split_sheet a1_range) in
  match Re.match_range a1_range with
  | Some (_, start_row, _, end_row) => int_raises start_row || int_raises end_row
  | None =>
      match Re.match_cell a1_range with
      | Some (_, row) => int_raises row
      | None => false
      end
  end.

(** A call of [_parse_a1_to_indices]: the [ValueError] of [int], or the
    tuple it returns. *)
Definition parse_a1 (a1_range : str) : Result (option str * option Indices) :=
  if parse_raises a1_range then Raise ValueError
  else Ok (_parse_a1_to_indices a1_range).

(** A conditional format rule of a sheet; the code only counts them. *)
Definition ConditionalFormat := list GridRange.

(** An item of [spreadsheet.get("sheets", [])].  [title] and [sheetId] are
    the keys of its ["properties"], [None] when the key (or
    ["properties"] itself) is missing; a missing ["merges"] or
    ["conditionalFormats"] is the empty list. *)
Record Sheet := mkSheet {
  title : option str;
  sheetId : option Z;
  merges : list GridRange;
  conditionalFormats : list ConditionalFormat
}.

Definition str_eqb (a b : str) : bool :=
  if list_eq_dec Z.eq_dec a b then true else false.

(** [title == sheet_name], where [sheet_name] is [None] for a range
    without ['!']. *)
Definition title_is (t : str) (sheet_name : option str) : bool :=
  match sheet_name with
  | Some n => str_eqb t n
  | None => false
  end.

(** The loop [for sheet in spreadsheet.get("sheets", [])] of the mutation
    tools: [sheet["properties"]["title"]] and
    [sheet["properties"]["sheetId"]] raise [KeyError] on a missing key. *)
Fixpoint find_sheet_id (sheets : list Sheet) (sheet_name : option str)
  : Result (option Z) :=
  match sheets with
  | [] => Ok None
  | sheet :: rest =>
      match title sheet with
      | None => Raise KeyError
      | Some t =>
          if title_is t sheet_name then
            match sheetId sheet with
            | Some id => Ok (Some id)
            | None => Raise KeyError
            end
          else find_sheet_id rest sheet_name
      end
  end.

(** The loop followed by [if sheet_id is None: raise Exception(...)]. *)
Definition resolve_sheet_id (sheets : list Sheet) (sheet_name : option str)
  : Result Z :=
  match find_sheet_id sheets sheet_name with
  | Ok (Some id) => Ok id
  | Ok None => Raise (SheetNotFound sheet_name)
  | Raise e => Raise e
  end.

(** ** The mutation tools up to their report *)

(** The ["range"] of a batch request: the sheet id and the four bounds as
    the parser returned them, [None] included. *)
Record RequestRange := mkRequestRange {
  rq_sheetId : Z;
  rq_startRowIndex : option Z;
  rq_endRowIndex : option Z;
  rq_startColumnIndex : option Z;
  rq_endColumnIndex : option Z
}.

Definition request_range (sheet_id : Z) (parsed : option Indices) : RequestRange :=
  mkRequestRange sheet_id
    (option_map start_row parsed) (option_map end_row parsed)
    (option_map start_col parsed) (option_map end_col parsed).

(** What a tool did: the ranges of the requests it passed to
    [batchUpdate], in order, and then either the data of the message it
    returned or the exception it raised.  [sheets] below is what
    [spreadsheets().get(...)] answered; the answer of [batchUpdate] is not
    used by the code.  Every tool parses the range first, before it asks
    for the sheets.  The runs described are those in which the two calls
    of the API answer; an error of the API ends the tool at that call. *)
Inductive Outcome (A : Type) :=
| Returned (sent : list RequestRange) (a : A)
| Raised (sent : list RequestRange) (e : exn).
Arguments Returned {A} sent a.
Arguments Raised {A} sent e.

Definition unmerge_cells (sheets : list Sheet) (range_name : str) : Outcome unit :=
  match parse_a1 range_name with
  | Raise e => Raised [] e
  | Ok (sheet_name, parsed) =>
      match resolve_sheet_id sheets sheet_name with
      | Raise e => Raised [] e
      | Ok sheet_id => Returned [request_range sheet_id parsed] tt
      end
  end.

Definition clear_data_validation (sheets : list Sheet) (range_name : str)
  : Outcome unit :=
  match parse_a1 range_name with
  | Raise e => Raised [] e
  | Ok (sheet_name, parsed) =>
      match resolve_sheet_id sheets sheet_name with
      | Raise e => Raised [] e
      | Ok sheet_id => Returned [request_range sheet_id parsed] tt
      end
  end.

Definition create_named_range (sheets : list Sheet) (range_name : str)
  : Outcome unit :=
  match parse_a1 range_name with
  | Raise e => Raised [] e
  | Ok (sheet_name, parsed) =>
      match resolve_sheet_id sheets sheet_name with
      | Raise e => Raised [] e
      | Ok sheet_id => Returned [request_range sheet_id parsed] tt
      end
  end.

(** [merge_cells] reports [rows_merged] and [cols_merged]; the
    subtractions come after [batchUpdate], and [merge_description] prints
    the product and the two numbers whatever [merge_type] is. *)
Definition merge_cells (sheets : list Sheet) (range_name : str)
  : Outcome (Z * Z) :=
  match parse_a1 range_name with
  | Raise e => Raised [] e
  | Ok (sheet_name, parsed) =>
      match resolve_sheet_id sheets sheet_name with
      | Raise e => Raised [] e
      | Ok sheet_id =>
          match parsed with
          | Some r =>
              let rows_merged := end_row r - start_row r in
              let cols_merged := end_col r - start_col r in
              match str_of_int (rows_merged * cols_merged),
                    str_of_int rows_merged, str_of_int cols_merged with
              | Some _, Some _, Some _ =>
                  Returned [request_range sheet_id parsed]
                           (rows_merged, cols_merged)
              | _, _, _ => Raised [request_range sheet_id parsed] ValueError
              end
          | None => Raised [request_range sheet_id parsed] TypeError
          end
      end
  end.

(** The bounds of a merge and of an entry of [merged_regions]. *)
Definition merge_bounds (m : GridRange) : Z * Z * Z * Z :=
  (m_start_row m, m_end_row m, m_start_col m, m_end_col m).

Definition region_bounds (mr : MergedRegion) : Z * Z * Z * Z :=
  (mr_start_row mr, mr_end_row mr, mr_start_col mr, mr_end_col mr).

(** ** More Python text *)

(** [c in s] for a one-character [c]. *)
Definition contains (c : char) (s : str) : bool := existsb (Z.eqb c) s.

(** [s.split(sep)] for a one-character [sep]: the pieces between the
    occurrences of [sep], at least one piece. *)
Fixpoint str_split (sep : char) (s : str) : list str :=
  match s with
  | [] => [[]]
  | c :: s' =>
      if c =? sep then [] :: str_split sep s'
      else match str_split sep s' with
           | piece :: pieces => (c :: piece) :: pieces
           | [] => [[c]]
           end
  end.

(** [s.startswith(c)] for a one-character [c]. *)
Definition startswith (c : char) (s : str) : bool :=
  match s with
  | c' :: _ => c' =? c
  | [] => false
  end.

(** The truth value of a text: it is not empty. *)
Definition truthy (s : str) : bool :=
  match s with
  | [] => false
  | _ :: _ => true
  end.

(** The characters that [str.strip()] removes: those for which
    [str.isspace()] holds. *)
Definition is_space (c : char) : bool :=
  ((9 <=? c) && (c <=? 13)) || ((28 <=? c) && (c <=? 32))
  || (c =? 133) || (c =? 160) || (c =? 5760)
  || ((8192 <=? c) && (c <=? 8202))
  || (c =? 8232) || (c =? 8233) || (c =? 8239) || (c =? 8287) || (c =? 12288).

Fixpoint lstrip (s : str) : str :=
  match s with
  | c :: s' => if is_space c then lstrip s' else s
  | [] => []
  end.

Definition strip (s : str) : str := rev (lstrip (rev (lstrip s))).

(** [cell and cell.strip()], as a truth value. *)
Definition has_text (cell : str) : bool := truthy cell && truthy (strip cell).

(** ** Two text steps of [add_data_validation] *)

(** The cell that the TEXT_LENGTH formula refers to:
    [range_name.split(":")[-1] if ":" in range_name else range_name],
    then [first_cell.split("!")[-1]] if it holds a ['!']. *)
Definition first_cell (range_name : str) : str :=
  let first_cell :=
    if contains 58 range_name then last (str_split 58 range_name) []
    else range_name in
  if contains 33 first_cell then last (str_split 33 first_cell) []
  else first_cell.

(** The source of a LIST validation given as a range: the sheet name is
    put in front when there is no ['!'], then ['='] when the text does
    not start with it. *)
Definition list_source_range (sheet_name source_range : str) : str :=
  let source_range :=
    if negb (contains 33 source_range)
    then sheet_name ++ py "!" ++ source_range
    else source_range in
  if negb (startswith 61 source_range) then py "=" ++ source_range
  else source_range.

(** ** [format_cells] and [add_data_validation] up to their report *)

(** The truth values of the optional arguments of [format_cells]. *)
Record FormatArgs := mkFormatArgs {
  background_color : bool;
  text_format : bool;
  horizontal_alignment : bool;
  vertical_alignment : bool;
  borders : bool;
  number_format : bool
}.

(** Whether [cell_format] got a key: every argument that is given puts
    one in. *)
Definition cell_format_given (args : FormatArgs) : bool :=
  background_color args || text_format args || horizontal_alignment args
  || vertical_alignment args || borders args || number_format args.

(** [format_cells]: the message without a count ("No formatting options
    provided") is [None], otherwise the count [cells_formatted], which is
    computed after [batchUpdate] and then printed into the message. *)
Definition format_cells (sheets : list Sheet) (range_name : str)
           (args : FormatArgs) : Outcome (option Z) :=
  match parse_a1 range_name with
  | Raise e => Raised [] e
  | Ok (sheet_name, parsed) =>
      match resolve_sheet_id sheets sheet_name with
      | Raise e => Raised [] e
      | Ok sheet_id =>
          let requests :=
            if cell_format_given args then [request_range sheet_id parsed]
            else [] in
          match requests with
          | [] => Returned [] None
          | _ :: _ =>
              match parsed with
              | Some r =>
                  let cells_formatted :=
                    (end_row r - start_row r) * (end_col r - start_col r) in
                  match str_of_int cells_formatted with
                  | Some _ => Returned requests (Some cells_formatted)
                  | None => Raised requests ValueError
                  end
              | None => Raised requests TypeError
              end
          end
      end
  end.

(** The keys of [validation_config] that the code reads, [None] for a
    missing key.  A key that is present holds a value of the documented
    kind: a list under ["values"], a text under ["range"], ["condition"]
    and ["formula"].  The items of the list and the ["value"] are numbers
    or texts; they stand here as the texts that [str] and an f-string
    make of them (a number is taken to have at most [max_str_digits]
    digits, so that it can be printed). *)
Record ValidationConfig := mkValidationConfig {
  cfg_values : option (list str);
  cfg_range : option str;
  cfg_condition : option str;
  cfg_value : option str;
  cfg_formula : option str
}.

(** [rule["condition"]]: its type and the texts of its values, [None]
    when it has no ["values"]. *)
Record Condition := mkCondition {
  cond_type : str;
  cond_values : option (list str)
}.

(** [validation_config["values"][0]] and [validation_config["values"][1]]. *)
Definition first_two (values : option (list str)) : Result (str * str) :=
  match values with
  | None => Raise KeyError
  | Some (a :: b :: _) => Ok (a, b)
  | Some _ => Raise IndexError
  end.

(** [min_val, max_val = validation_config["values"]]. *)
Definition unpack_two (values : option (list str)) : Result (str * str) :=
  match values with
  | None => Raise KeyError
  | Some [a; b] => Ok (a, b)
  | Some _ => Raise ValueError
  end.

(** [validation_config.get("condition", default)]. *)
Definition condition_or (cfg : ValidationConfig) (default : str) : str :=
  match cfg_condition cfg with
  | Some c => c
  | None => default
  end.

(** The two [type_map.get(condition, default)]. *)
Definition number_type (condition : str) : str :=
  if str_eqb condition (py "GREATER_THAN") then py "NUMBER_GREATER"
  else if str_eqb condition (py "GREATER_THAN_OR_EQUAL")
       then py "NUMBER_GREATER_THAN_EQ"
  else if str_eqb condition (py "LESS_THAN") then py "NUMBER_LESS"
  else if str_eqb condition (py "LESS_THAN_OR_EQUAL")
       then py "NUMBER_LESS_THAN_EQ"
  else if str_eqb condition (py "EQUAL") then py "NUMBER_EQ"
  else if str_eqb condition (py "NOT_EQUAL") then py "NUMBER_NOT_EQ"
  else py "NUMBER_GREATER".

Definition date_type (condition : str) : str :=
  if str_eqb condition (py "GREATER_THAN") then py "DATE_AFTER"
  else if str_eqb condition (py "LESS_THAN") then py "DATE_BEFORE"
  else if str_eqb condition (py "EQUAL") then py "DATE_EQ"
  else py "DATE_AFTER".

(** The formula of a TEXT_LENGTH validation; [value] is
    [validation_config.get("value")], printed as "None" when missing. *)
Definition text_length_formula (cfg : ValidationConfig) (range_name : str)
  : Result str :=
  let condition := condition_or cfg (py "LESS_THAN") in
  let value := match cfg_value cfg with
               | Some v => v
               | None => py "None"
               end in
  let cell := first_cell range_name in
  if str_eqb condition (py "LESS_THAN")
  then Ok (py "=LEN(" ++ cell ++ py ")<" ++ value)
  else if str_eqb condition (py "LESS_THAN_OR_EQUAL")
  then Ok (py "=LEN(" ++ cell ++ py ")<=" ++ value)
  else if str_eqb condition (py "GREATER_THAN")
  then Ok (py "=LEN(" ++ cell ++ py ")>" ++ value)
  else if str_eqb condition (py "GREATER_THAN_OR_EQUAL")
  then Ok (py "=LEN(" ++ cell ++ py ")>=" ++ value)
  else if str_eqb condition (py "BETWEEN")
  then match unpack_two (cfg_values cfg) with
       | Ok (min_val, max_val) =>
           Ok (py "=AND(LEN(" ++ cell ++ py ")>=" ++ min_val
               ++ py ",LEN(" ++ cell ++ py ")<=" ++ max_val ++ py ")")
       | Raise e => Raise e
       end
  else Ok (py "=LEN(" ++ cell ++ py ")<" ++ value).

(** The chain [if validation_type == "LIST": ... elif ...] that fills
    [rule["condition"]]; [None] when no branch sets it. *)
Definition build_condition (validation_type : str) (cfg : ValidationConfig)
           (sheet_name range_name : str) : Result (option Condition) :=
  if str_eqb validation_type (py "LIST") then
    match cfg_values cfg, cfg_range cfg with
    | Some values, _ => Ok (Some (mkCondition (py "ONE_OF_LIST") (Some values)))
    | None, Some source_range =>
        Ok (Some (mkCondition (py "ONE_OF_RANGE")
                              (Some [list_source_range sheet_name
                                                       source_range])))
    | None, None => Ok None
    end
  else if str_eqb validation_type (py "NUMBER") then
    let condition := condition_or cfg (py "GREATER_THAN") in
    if str_eqb condition (py "BETWEEN") then
      match first_two (cfg_values cfg) with
      | Ok (a, b) => Ok (Some (mkCondition (py "NUMBER_BETWEEN") (Some [a; b])))
      | Raise e => Raise e
      end
    else if str_eqb condition (py "NOT_BETWEEN") then
      match first_two (cfg_values cfg) with
      | Ok (a, b) => Ok (Some (mkCondition (py "NUMBER_NOT_BETWEEN") (Some [a; b])))
      | Raise e => Raise e
      end
    else
      match cfg_value cfg with
      | Some v => Ok (Some (mkCondition (number_type condition) (Some [v])))
      | None => Raise KeyError
      end
  else if str_eqb validation_type (py "DATE") then
    let condition := condition_or cfg (py "GREATER_THAN") in
    if str_eqb condition (py "BETWEEN") then
      match first_two (cfg_values cfg) with
      | Ok (a, b) => Ok (Some (mkCondition (py "DATE_BETWEEN") (Some [a; b])))
      | Raise e => Raise e
      end
    else
      match cfg_value cfg with
      | Some v => Ok (Some (mkCondition (date_type condition) (Some [v])))
      | None => Raise KeyError
      end
  else if str_eqb validation_type (py "TEXT_LENGTH") then
    match text_length_formula cfg range_name with
    | Ok formula => Ok (Some (mkCondition (py "CUSTOM_FORMULA") (Some [formula])))
    | Raise e => Raise e
    end
  else if str_eqb validation_type (py "CUSTOM") then
    match cfg_formula cfg with
    | Some formula => Ok (Some (mkCondition (py "CUSTOM_FORMULA") (Some [formula])))
    | None => Raise KeyError
    end
  else if str_eqb validation_type (py "CHECKBOX") then
    Ok (Some (mkCondition (py "BOOLEAN") None))
  else Ok None.

(** The text that an f-string makes of [sheet_name]. *)
Definition name_text (sheet_name : option str) : str :=
  match sheet_name with
  | Some n => n
  | None => py "None"
  end.

(** [add_data_validation]: the rule is built before the request is sent;
    [cells_validated] is computed after and then printed into the
    message. *)
Definition add_data_validation (sheets : list Sheet) (range_name : str)
           (validation_type : str) (validation_config : ValidationConfig)
  : Outcome Z :=
  match parse_a1 range_name with
  | Raise e => Raised [] e
  | Ok (sheet_name, parsed) =>
      match resolve_sheet_id sheets sheet_name with
      | Raise e => Raised [] e
      | Ok sheet_id =>
          match build_condition validation_type validation_config
                                (name_text sheet_name) range_name with
          | Raise e => Raised [] e
          | Ok _ =>
              match parsed with
              | Some r =>
                  let cells_validated :=
                    (end_row r - start_row r) * (end_col r - start_col r) in
                  match str_of_int cells_validated with
                  | Some _ =>
                      Returned [request_range sheet_id parsed] cells_validated
                  | None => Raised [request_range sheet_id parsed] ValueError
                  end
              | None => Raised [request_range sheet_id parsed] TypeError
              end
          end
      end
  end.

(** ** [clear_conditional_formatting] *)

(** A [deleteConditionalFormatRule] request. *)
Record DeleteRule := mkDeleteRule {
  dr_sheetId : option Z;
  dr_index : Z
}.

Definition opt_str_eqb (a b : option str) : bool :=
  match a, b with
  | Some x, Some y => str_eqb x y
  | None, None => true
  | _, _ => false
  end.

(** The truth value of the optional argument [sheet_name]: it is given
    and not empty. *)
Definition name_given (sheet_name : option str) : bool :=
  match sheet_name with
  | Some n => truthy n
  | None => false
  end.

(** The inner loop [for i, rule in enumerate(conditional_formats)]. *)
Fixpoint delete_each (sheet_id : option Z) (conditional_formats : list ConditionalFormat)
         (requests : list DeleteRule) (rules_cleared : Z)
  : list DeleteRule * Z :=
  match conditional_formats with
  | [] => (requests, rules_cleared)
  | _ :: rest =>
      delete_each sheet_id rest
        (requests ++ [mkDeleteRule sheet_id 0]) (rules_cleared + 1)
  end.

(** The loop over the sheets. *)
Fixpoint clear_loop (sheets : list Sheet) (sheet_name : option str)
         (requests : list DeleteRule) (rules_cleared : Z)
  : list DeleteRule * Z :=
  match sheets with
  | [] => (requests, rules_cleared)
  | sheet :: rest =>
      if name_given sheet_name && negb (opt_str_eqb (title sheet) sheet_name)
      then clear_loop rest sheet_name requests rules_cleared
      else
        let (requests', rules_cleared') :=
          delete_each (sheetId sheet) (conditionalFormats sheet)
                      requests rules_cleared in
        clear_loop rest sheet_name requests' rules_cleared'
  end.

(** What the tool does: nothing is sent when there is no request,
    otherwise the requests go to [batchUpdate] and [rules_cleared] is
    reported ([rules_cleared] counts the items of a list, which has fewer
    than 2^63 of them, so the number can always be printed). *)
Inductive ClearOutcome :=
| NoRulesFound
| ClearedRules (requests : list DeleteRule) (rules_cleared : Z).

Definition clear_conditional_formatting (sheets : list Sheet)
           (sheet_name : option str) : ClearOutcome :=
  let (requests, rules_cleared) := clear_loop sheets sheet_name [] 0 in
  match requests with
  | [] => NoRulesFound
  | _ :: _ => ClearedRules requests rules_cleared
  end.

(** The sheets that the loop of [clear_conditional_formatting] does not
    skip, and the requests it makes for one of them. *)
Definition is_target (sheet_name : option str) (sheet : Sheet) : bool :=
  negb (name_given sheet_name && negb (opt_str_eqb (title sheet) sheet_name)).

Definition delete_requests (sheet : Sheet) : list DeleteRule :=
  repeat (mkDeleteRule (sheetId sheet) 0) (List.length (conditionalFormats sheet)).

(** ** The data preview of [get_spreadsheet_info] *)

(** [any(cell.strip() for cell in row if cell)]. *)
Definition row_has_data (row : list str) : bool :=
  existsb (fun cell => truthy (strip cell)) (filter truthy row).

(** [max(items, default=d)]. *)
Definition max_default (items : list Z) (d : Z) : Z :=
  match items with
  | [] => d
  | x :: rest => fold_left Z.max rest x
  end.

(** [max((j for j, cell in enumerate(row) if cell and cell.strip()),
    default=0)]. *)
Definition last_data_col (row : list str) : Z :=
  max_default
    (map (fun jc : nat * str => Z.of_nat (fst jc))
         (filter (fun jc : nat * str => has_text (snd jc)) (enumerate row)))
    0.

(** The three counters of the scan. *)
Record Preview := mkPreview {
  non_empty_rows : Z;
  max_col_with_data : Z;
  first_row_with_data : Z
}.

(** The body of [for i, row in enumerate(values)]. *)
Definition preview_step (st : Preview) (irow : nat * list str) : Preview :=
  let i := Z.of_nat (fst irow) in
  let row := snd irow in
  if row_has_data row then
    mkPreview (non_empty_rows st + 1)
              (Z.max (max_col_with_data st) (last_data_col row))
              (if first_row_with_data st =? -1 then i
               else first_row_with_data st)
  else st.

Definition preview_scan (values : list (list str)) : Preview :=
  fold_left preview_step (enumerate values) (mkPreview 0 0 (-1)).

(** ** The lines of [read_sheet_values] *)

(** A line of [formatted_rows], as the f-string that makes it and the
    values put into it. *)
Inductive Line :=
| MergedCellsDetected
| MergeLine (a1 : str) (rows cols : Z)
| MoreMergedRegions (n : Z)
| DataValues
| HeaderRow (row : list str)
| Dashes
| DataRow (i : Z) (padded_row : list str) (merge_annotations : list str)
| MoreRows (n : Z).

(** The lines added under [if merged_regions:]. *)
Definition merge_lines (merged_regions : list MergedRegion) : list Line :=
  match merged_regions with
  | [] => []
  | _ :: _ =>
      [MergedCellsDetected]
      ++ map (fun merge =>
                MergeLine (mr_a1 merge)
                          (mr_end_row merge - mr_start_row merge)
                          (mr_end_col merge - mr_start_col merge))
             (firstn 10 merged_regions)
      ++ (if 10 <? Z.of_nat (List.length merged_regions)
          then [MoreMergedRegions (Z.of_nat (List.length merged_regions) - 10)]
          else [])
      ++ [DataValues]
  end.

(** [has_header]: the first row has more than one cell and at least two
    cells with text. *)
Definition has_header (values : list (list str)) : bool :=
  match values with
  | first :: _ =>
      (1 <? Z.of_nat (List.length first))
      && (2 <=? Z.of_nat (List.length (filter has_text first)))
  | [] => false
  end.

(** The annotations of the row that [enumerate] numbers [i]. *)
Definition merge_annotations_of (parsed : option Indices)
           (merged_regions : list MergedRegion) (i : Z) : list str :=
  match merged_regions, parsed with
  | _ :: _, Some r =>
      let actual_row_idx := start_row r + i - 1 in
      map mr_a1
          (filter (fun merge => (mr_start_row merge <=? actual_row_idx)
                                && (actual_row_idx <? mr_end_row merge))
                  merged_regions)
  | _, _ => []
  end.

(** [row + [""] * max(0, len(values[0]) - len(row))]. *)
Definition pad_row (first row : list str) : list str :=
  row ++ repeat [] (Z.to_nat (Z.max 0 (Z.of_nat (List.length first)
                                        - Z.of_nat (List.length row)))).

(** The loop over [enumerate(values[start_idx:], start_idx + 1)], from
    the row numbered [i] on; [total] is [len(values)]. *)
Fixpoint rows_loop (parsed : option Indices) (merged_regions : list MergedRegion)
         (first : list str) (total : Z) (rows : list (list str)) (i : Z)
         (formatted_rows : list Line) : list Line :=
  match rows with
  | [] => formatted_rows
  | row :: rest =>
      let formatted_rows :=
        formatted_rows
        ++ [DataRow i (pad_row first row)
                    (merge_annotations_of parsed merged_regions i)] in
      if 60 <? Z.of_nat (List.length formatted_rows)
      then formatted_rows ++ [MoreRows (total - i)]
      else rows_loop parsed merged_regions first total rest (i + 1)
                     formatted_rows
  end.

(** [formatted_rows] at the end of [read_sheet_values], for a non-empty
    [values]. *)
Definition formatted_rows (parsed : option Indices)
           (merged_regions : list MergedRegion) (values : list (list str))
  : list Line :=
  match values with
  | [] => []
  | first :: _ =>
      let header :=
        if has_header values then [HeaderRow first; Dashes] else [] in
      let start_idx := if has_header values then 1%nat else 0%nat in
      rows_loop parsed merged_regions first (Z.of_nat (List.length values))
                (skipn start_idx values) (Z.of_nat start_idx + 1)
                (merge_lines merged_regions ++ header)
  end.

(** ** The listing of [list_named_ranges] *)

(** A Python dict from sheet ids to names, newest entry first; a key
    that is set again hides its older entry. *)
Definition Dict := list (option Z * str).

Definition opt_Z_eqb (a b : option Z) : bool :=
  match a, b with
  | Some x, Some y => x =? y
  | None, None => true
  | _, _ => false
  end.

Definition dict_set (k : option Z) (v : str) (d : Dict) : Dict := (k, v) :: d.

Fixpoint dict_get (k : option Z) (d : Dict) (default : str) : str :=
  match d with
  | [] => default
  | (k', v) :: rest => if opt_Z_eqb k' k then v else dict_get k rest default
  end.

(** [sheet_id_to_name], filled by the loop over the sheets. *)
Definition sheet_id_to_name (sheets : list Sheet) : Dict :=
  fold_left (fun d sheet =>
               dict_set (sheetId sheet)
                        (match title sheet with
                         | Some t => t
                         | None => py "Unknown"
                         end) d)
            sheets [].

(** The ["range"] of a named range: its sheet id and its bounds, every
    key possibly missing. *)
Record NamedRangeData := mkNamedRangeData {
  nr_sheetId : option Z;
  nr_grid : GridRange
}.

(** [full_range] of the loop over the named ranges; [None] when
    [_convert_indices_to_a1] raises. *)
Definition full_range (sheets : list Sheet) (range_data : NamedRangeData)
  : option str :=
  let sheet_name :=
    dict_get (nr_sheetId range_data) (sheet_id_to_name sheets) (py "Unknown") in
  match _convert_indices_to_a1 (m_start_row (nr_grid range_data))
                               (m_end_row (nr_grid range_data))
                               (m_start_col (nr_grid range_data))
                               (m_end_col (nr_grid range_data)) with
  | Some a1_range => Some (sheet_name ++ py "!" ++ a1_range)
  | None => None
  end.

(** * First checks *)

Example parse_B2 :
  _parse_a1_to_indices (py "B2") = (None, Some (mkIndices 1 2 1 2)).
Proof. reflexivity. Qed.

Example parse_Sheet1_A1_C4 :
  _parse_a1_to_indices (py "Sheet1!A1:C4")
  = (Some (py "Sheet1"), Some (mkIndices 0 4 0 3)).
Proof. reflexivity. Qed.

Example convert_26 :
  _convert_indices_to_a1 0 1 26 27 = Some (py "AA1:AA1").
Proof. reflexivity. Qed.

(** * Lemmas on text *)

Lemma py_app a b : py (a ++ b)%string = py a ++ py b.
Proof.
  unfold py. induction a as [|c a IH]; simpl; [reflexivity|].
  now f_equal.
Qed.

Lemma sum_cons x l : sum (x :: l) = x + sum l.
Proof.
  unfold sum. simpl.
  assert (G : forall l a b, fold_left Z.add l (a + b) = a + fold_left Z.add l b).
  { clear. induction l as [|y l IH]; intros a b; simpl; [reflexivity|].
    rewrite <- Z.add_assoc. apply IH. }
  rewrite <- (G l x 0). f_equal. lia.
Qed.

Lemma sum_app l1 l2 : sum (l1 ++ l2) = sum l1 + sum l2.
Proof.
  induction l1 as [|x l1 IH]; simpl.
  - reflexivity.
  - rewrite !sum_cons, IH. lia.
Qed.

Lemma sum_map_scale {A} (f : A -> Z) k l :
  sum (map (fun x => k * f x) l) = k * sum (map f l).
Proof.
  induction l as [|x l IH]; simpl.
  - unfold sum. simpl. lia.
  - rewrite !sum_cons, IH. lia.
Qed.

Lemma sum_map_ext_in {A} (f g : A -> Z) l :
  (forall x, In x l -> f x = g x) -> sum (map f l) = sum (map g l).
Proof.
  intros H. f_equal. now apply map_ext_in.
Qed.

Lemma nd_starts_low s : In s nd_starts -> s = 48 \/ 1632 <= s.
Proof.
  unfold nd_starts. intros H.
  repeat (destruct H as [<-|H]; [lia|]). contradiction.
Qed.

Lemma digit_value_some c d :
  digit_value c = Some d -> 0 <= d <= 9 /\ (c = 48 + d \/ 1632 <= c).
Proof.
  unfold digit_value.
  destruct (find (fun s => (s <=? c) && (c <? s + 10)) nd_starts) as [s|] eqn:F;
    [|discriminate].
  intros H. inversion H; subst d; clear H.
  apply find_some in F as [Hin Hr]. apply nd_starts_low in Hin. lia.
Qed.

Lemma digit_value_ascii c : 48 <= c <= 57 -> digit_value c = Some (c - 48).
Proof.
  intros H. unfold digit_value, nd_starts. cbn [find].
  replace ((48 <=? c) && (c <? 48 + 10)) with true; [reflexivity|].
  symmetry. apply andb_true_iff. split; lia.
Qed.

Lemma is_digit_cases c : Re.is_digit c = true -> 48 <= c <= 57 \/ 1632 <= c.
Proof.
  unfold Re.is_digit. destruct (digit_value c) as [d|] eqn:E; [|discriminate].
  intros _. apply digit_value_some in E. lia.
Qed.

Lemma is_digit_ascii c : 48 <= c <= 57 -> Re.is_digit c = true.
Proof.
  intros H. unfold Re.is_digit. now rewrite digit_value_ascii.
Qed.

Lemma digit_of_range c : 0 <= digit_of c <= 9.
Proof.
  unfold digit_of. destruct (digit_value c) as [d|] eqn:E; [|lia].
  apply digit_value_some in E. lia.
Qed.

Lemma digit_of_ascii c : 48 <= c <= 57 -> digit_of c = c - 48.
Proof.
  intros H. unfold digit_of. now rewrite digit_value_ascii.
Qed.

Lemma int_of_digits_snoc text c :
  int_of_digits (text ++ [c]) = 10 * int_of_digits text + digit_of c.
Proof.
  unfold int_of_digits. rewrite fold_left_app. reflexivity.
Qed.

Lemma int_of_digits_nonneg text :
  forallb Re.is_digit text = true -> 0 <= int_of_digits text.
Proof.
  induction text as [|c text IH] using rev_ind; intros H.
  - unfold int_of_digits. simpl. lia.
  - rewrite forallb_app in H. apply andb_true_iff in H as [H1 _].
    rewrite int_of_digits_snoc. specialize (IH H1).
    pose proof (digit_of_range c). lia.
Qed.

(** * Lemmas on the column value *)

Lemma col_index_unfold col :
  col_index col = sum (map weigh (enumerate (rev col))).
Proof. reflexivity. Qed.

Lemma sum_weigh_shift l start :
  sum (map weigh (combine (seq (S start) (List.length l)) l))
  = 26 * sum (map weigh (combine (seq start (List.length l)) l)).
Proof.
  revert start.
  induction l as [|c l IH]; intros start; cbn [List.length seq combine map].
  - reflexivity.
  - rewrite !sum_cons, IH. unfold weigh at 1 3. simpl fst. simpl snd.
    rewrite Nat2Z.inj_succ, Z.pow_succ_r by lia. ring.
Qed.

Lemma col_index_nil : col_index [] = 0.
Proof. reflexivity. Qed.

Lemma col_index_snoc col c :
  col_index (col ++ [c]) = 26 * col_index col + (ord c - 65).
Proof.
  rewrite !col_index_unfold, rev_app_distr. simpl rev. simpl app.
  unfold enumerate. simpl List.length. simpl seq. simpl combine.
  simpl map. rewrite sum_cons, sum_weigh_shift.
  unfold weigh at 1. simpl fst. simpl snd. rewrite Z.pow_0_r. lia.
Qed.

Lemma col_index_single c : col_index [c] = ord c - 65.
Proof.
  change [c] with ([] ++ [c]). rewrite col_index_snoc, col_index_nil. lia.
Qed.

Lemma col_index_nonneg col :
  forallb Re.is_upper col = true -> 0 <= col_index col.
Proof.
  induction col as [|c col IH] using rev_ind; intros H.
  - rewrite col_index_nil. lia.
  - rewrite forallb_app in H. apply andb_true_iff in H as [H1 H2].
    simpl in H2. rewrite andb_true_r in H2. unfold Re.is_upper in H2.
    rewrite col_index_snoc. specialize (IH H1). unfold ord. lia.
Qed.

Lemma positional_value_nil : positional_value [] = 0.
Proof. reflexivity. Qed.

Lemma positional_value_snoc col c :
  positional_value (col ++ [c]) = 26 * positional_value col + (ord c - 65).
Proof.
  unfold positional_value. rewrite length_app. cbn [List.length].
  rewrite Nat.add_1_r, seq_S, map_app, sum_app. cbn [map].
  rewrite sum_cons. f_equal.
  - rewrite <- sum_map_scale. apply sum_map_ext_in.
    intros i Hi. apply in_seq in Hi.
    rewrite app_nth1 by lia.
    replace (Z.of_nat (S (List.length col)) - 1 - Z.of_nat i)
      with (Z.succ (Z.of_nat (List.length col) - 1 - Z.of_nat i)) by lia.
    rewrite Z.pow_succ_r by lia. ring.
  - rewrite Nat.add_0_l, nth_middle.
    replace (Z.of_nat (S (List.length col)) - 1 - Z.of_nat (List.length col))
      with 0 by lia.
    rewrite Z.pow_0_r. unfold sum. cbn [fold_left]. lia.
Qed.

Lemma col_index_positional col : col_index col = positional_value col.
Proof.
  induction col as [|c col IH] using rev_ind.
  - reflexivity.
  - now rewrite col_index_snoc, positional_value_snoc, IH.
Qed.

(** * Lemmas on the matcher

    For the two patterns of the parser backtracking never finds a second
    way: a group gives characters back only to a continuation that then
    has to start on a character of the group's own class, which a digit
    group, a [':'] and a letter group all refuse.  So every group is the
    longest run of its class, and the match is the one of a scanner. *)

Lemma span_app cls s : fst (span cls s) ++ snd (span cls s) = s.
Proof.
  induction s as [|c s IH]; simpl; [reflexivity|].
  destruct (cls c); [|reflexivity].
  destruct (span cls s) as [g r]. simpl in *. now f_equal.
Qed.

Lemma span_all cls s : forallb cls (fst (span cls s)) = true.
Proof.
  induction s as [|c s IH]; simpl; [reflexivity|].
  destruct (cls c) eqn:E; [|reflexivity].
  destruct (span cls s) as [g r]. simpl in *. rewrite E. exact IH.
Qed.

Lemma span_rest cls s : heads cls (snd (span cls s)) = false.
Proof.
  induction s as [|c s IH]; simpl; [reflexivity|].
  destruct (cls c) eqn:E; [|exact E].
  destruct (span cls s) as [g r]. exact IH.
Qed.

Lemma span_exact cls g r :
  forallb cls g = true -> heads cls r = false -> span cls (g ++ r) = (g, r).
Proof.
  intros Hg Hr. induction g as [|c g IH]; simpl in *.
  - destruct r as [|c r]; [reflexivity|]. simpl in *. now rewrite Hr.
  - apply andb_true_iff in Hg as [Hc Hg]. now rewrite Hc, (IH Hg).
Qed.

Lemma take_some cls s g r :
  take cls s = Some (g, r) ->
  s = g ++ r /\ g <> [] /\ forallb cls g = true /\ heads cls r = false.
Proof.
  unfold take. intros H.
  pose proof (span_app cls s) as Ha. pose proof (span_all cls s) as Hb.
  pose proof (span_rest cls s) as Hc.
  destruct (span cls s) as [g' r']. simpl in *.
  destruct g' as [|c g']; [discriminate|]. inversion H; subst.
  repeat split; auto. discriminate.
Qed.

Lemma take_exact cls g r :
  g <> [] -> forallb cls g = true -> heads cls r = false ->
  take cls (g ++ r) = Some (g, r).
Proof.
  intros Hn Hg Hr. unfold take. rewrite span_exact by assumption.
  destruct g; [contradiction|reflexivity].
Qed.

Lemma take_none cls s : take cls s = None <-> heads cls s = false.
Proof.
  unfold take. destruct s as [|c s]; simpl; [tauto|].
  destruct (cls c); [|tauto].
  destruct (span cls s). split; discriminate.
Qed.

Section Greedy.
Context {A : Type} (cls : char -> bool) (k : str -> str -> option A).

(** The continuation refuses a text that starts in the class, or it
    accepts everything. *)
Hypothesis no_second_way :
  (forall g r, heads cls r = true -> k g r = None)
  \/ (forall g r, k g r <> None).

Lemma plus_from_greedy s g :
  Re.plus_from cls g s k = k (g ++ fst (span cls s)) (snd (span cls s)).
Proof.
  revert g. induction s as [|c s IH]; intros g; simpl.
  - now rewrite app_nil_r.
  - destruct (cls c) eqn:E.
    + rewrite IH. destruct (span cls s) as [g' r'] eqn:Es. simpl.
      rewrite <- app_assoc. simpl.
      destruct (k (g ++ c :: g') r') eqn:Ek; [reflexivity|].
      destruct no_second_way as [H|H].
      * apply H. exact E.
      * now apply H in Ek.
    + simpl. now rewrite app_nil_r.
Qed.

Lemma plus_greedy s :
  Re.plus cls s k
  = match take cls s with
    | Some (g, r) => k g r
    | None => None
    end.
Proof.
  unfold Re.plus, take. destruct s as [|c s]; simpl; [reflexivity|].
  destruct (cls c) eqn:E; [|reflexivity].
  rewrite plus_from_greedy. now destruct (span cls s).
Qed.
End Greedy.

Lemma digit_not_upper c : Re.is_digit c = true -> Re.is_upper c = false.
Proof. intros H. apply is_digit_cases in H. unfold Re.is_upper. lia. Qed.

Lemma upper_not_digit c : Re.is_upper c = true -> Re.is_digit c = false.
Proof.
  intros H. destruct (Re.is_digit c) eqn:E; [|reflexivity].
  apply digit_not_upper in E. congruence.
Qed.

Lemma digit_not_colon c : Re.is_digit c = true -> (c =? 58) = false.
Proof. intros H. apply is_digit_cases in H. lia. Qed.

Lemma plus_digit_refuses_upper {A} (k : str -> str -> option A) r :
  heads Re.is_upper r = true -> Re.plus Re.is_digit r k = None.
Proof.
  destruct r as [|c r]; simpl; [discriminate|].
  intros H. now rewrite (upper_not_digit _ H).
Qed.

Lemma lit_colon_refuses_digit {A} (k : str -> option A) r :
  heads Re.is_digit r = true -> Re.lit 58 r k = None.
Proof.
  destruct r as [|c r]; simpl; [discriminate|].
  intros H. now rewrite (digit_not_colon _ H).
Qed.

Lemma match_cell_scan s :
  Re.match_cell s
  = match scan_cell s with
    | Some (col, row, _) => Some (col, row)
    | None => None
    end.
Proof.
  unfold Re.match_cell, scan_cell.
  rewrite plus_greedy
    by (left; intros; now apply plus_digit_refuses_upper).
  destruct (take Re.is_upper s) as [[g1 s1]|]; [|reflexivity].
  rewrite plus_greedy by (right; discriminate).
  now destruct (take Re.is_digit s1) as [[g2 s2]|].
Qed.

Lemma match_range_scan s : Re.match_range s = scan_range s.
Proof.
  unfold Re.match_range, scan_range, scan_cell.
  rewrite plus_greedy
    by (left; intros; now apply plus_digit_refuses_upper).
  destruct (take Re.is_upper s) as [[g1 s1]|]; [|reflexivity].
  rewrite plus_greedy
    by (left; intros; now apply lit_colon_refuses_digit).
  destruct (take Re.is_digit s1) as [[g2 s2]|]; [|reflexivity].
  destruct s2 as [|c s3]; [reflexivity|]. simpl Re.lit.
  destruct (c =? 58); [|reflexivity].
  rewrite plus_greedy
    by (left; intros; now apply plus_digit_refuses_upper).
  destruct (take Re.is_upper s3) as [[g3 s4]|]; [|reflexivity].
  rewrite plus_greedy by (right; discriminate).
  now destruct (take Re.is_digit s4) as [[g4 s5]|].
Qed.

(** * Lemmas on printing and reading a row number *)

Lemma py_uint_digits d :
  forallb Re.is_digit (py (NilEmpty.string_of_uint d)) = true.
Proof. induction d; simpl; auto. Qed.

Lemma fold_digits_acc d acc :
  fold_left (fun a c => 10 * a + digit_of c)
            (py (NilEmpty.string_of_uint d)) (Z.pos acc)
  = Z.pos (Pos.of_uint_acc d acc).
Proof.
  revert acc.
  induction d as [|d IH|d IH|d IH|d IH|d IH|d IH|d IH|d IH|d IH|d IH];
    intros acc; [reflexivity|..];
    cbn [NilEmpty.string_of_uint Pos.of_uint_acc];
    change (py (String ?a ?s)) with (Z.of_N (N_of_ascii a) :: py s);
    cbn [fold_left]; rewrite <- IH; f_equal;
    match goal with
    | |- context [digit_of (Z.of_N (N_of_ascii ?a))] =>
        let v := eval vm_compute in (digit_of (Z.of_N (N_of_ascii a))) in
        change (digit_of (Z.of_N (N_of_ascii a))) with v
    end;
    lia.
Qed.

Lemma int_of_digits_uint d :
  int_of_digits (py (NilEmpty.string_of_uint d)) = Z.of_N (Pos.of_uint d).
Proof.
  unfold int_of_digits.
  induction d as [|d IH|d IH|d IH|d IH|d IH|d IH|d IH|d IH|d IH|d IH];
    [reflexivity|exact IH|..];
    cbn [NilEmpty.string_of_uint Pos.of_uint];
    change (py (String ?a ?s)) with (Z.of_N (N_of_ascii a) :: py s);
    cbn [fold_left]; cbn [Z.of_N]; rewrite <- fold_digits_acc; reflexivity.
Qed.

Lemma repr_int_pos p :
  repr_int (Z.pos p) = py (NilEmpty.string_of_uint (Pos.to_uint p)).
Proof.
  unfold repr_int. simpl. unfold NilZero.string_of_uint.
  pose proof (Unsigned.to_uint_nonnil p) as H.
  destruct (Pos.to_uint p); [contradiction|reflexivity..].
Qed.

Lemma string_of_uint_nonnil d : d <> Decimal.Nil -> py (NilEmpty.string_of_uint d) <> [].
Proof. destruct d; [contradiction|discriminate..]. Qed.

Lemma repr_int_digits n :
  0 <= n -> forallb Re.is_digit (repr_int n) = true /\ repr_int n <> [].
Proof.
  intros H. destruct n as [|p|p]; [split; [reflexivity|discriminate]| |lia].
  rewrite repr_int_pos. split.
  - apply py_uint_digits.
  - apply string_of_uint_nonnil, Unsigned.to_uint_nonnil.
Qed.

Lemma int_of_repr_int n : 0 <= n -> int_of_digits (repr_int n) = n.
Proof.
  intros H. destruct n as [|p|p]; [reflexivity| |lia].
  now rewrite repr_int_pos, int_of_digits_uint, Unsigned.of_to.
Qed.

(** The value of a text of [k] digits is below [10^k], and it is at
    least [10^(k-1)] when the first digit is not a zero. *)
Lemma int_of_digits_cons c text :
  int_of_digits (c :: text)
  = digit_of c * 10 ^ Z.of_nat (List.length text) + int_of_digits text.
Proof.
  induction text as [|d text IH] using rev_ind.
  - unfold int_of_digits. cbn [fold_left List.length Z.of_nat].
    rewrite Z.pow_0_r. lia.
  - rewrite app_comm_cons, !int_of_digits_snoc, IH, length_app.
    cbn [List.length]. rewrite Nat.add_1_r, Nat2Z.inj_succ, Z.pow_succ_r by lia.
    ring.
Qed.

Lemma int_of_digits_lt text :
  0 <= int_of_digits text < 10 ^ Z.of_nat (List.length text).
Proof.
  induction text as [|c text IH] using rev_ind.
  - unfold int_of_digits. cbn. lia.
  - rewrite int_of_digits_snoc, length_app. cbn [List.length].
    rewrite Nat.add_1_r, Nat2Z.inj_succ, Z.pow_succ_r by lia.
    pose proof (digit_of_range c). lia.
Qed.

Lemma to_uint_head p :
  exists c text,
    py (NilEmpty.string_of_uint (Pos.to_uint p)) = c :: text /\ 49 <= c <= 57.
Proof.
  assert (U : Decimal.unorm (Pos.to_uint p) = Pos.to_uint p).
  { rewrite <- Unsigned.to_of, Unsigned.of_to. reflexivity. }
  assert (N : Decimal.nzhead (Pos.to_uint p) = Pos.to_uint p).
  { destruct (Decimal.nzhead (Pos.to_uint p)) eqn:E.
    - exfalso. unfold Decimal.unorm in U. rewrite E in U.
      symmetry in U. now apply Unsigned.to_uint_nonzero in U.
    - rewrite <- E, <- DecimalFacts.unorm_nzhead; [exact U|]. now rewrite E.
    - rewrite <- E, <- DecimalFacts.unorm_nzhead; [exact U|]. now rewrite E.
    - rewrite <- E, <- DecimalFacts.unorm_nzhead; [exact U|]. now rewrite E.
    - rewrite <- E, <- DecimalFacts.unorm_nzhead; [exact U|]. now rewrite E.
    - rewrite <- E, <- DecimalFacts.unorm_nzhead; [exact U|]. now rewrite E.
    - rewrite <- E, <- DecimalFacts.unorm_nzhead; [exact U|]. now rewrite E.
    - rewrite <- E, <- DecimalFacts.unorm_nzhead; [exact U|]. now rewrite E.
    - rewrite <- E, <- DecimalFacts.unorm_nzhead; [exact U|]. now rewrite E.
    - rewrite <- E, <- DecimalFacts.unorm_nzhead; [exact U|]. now rewrite E.
    - rewrite <- E, <- DecimalFacts.unorm_nzhead; [exact U|]. now rewrite E. }
  pose proof (DecimalFacts.nzhead_nonzero (Pos.to_uint p)) as Z0. rewrite N in Z0.
  pose proof (Unsigned.to_uint_nonnil p) as Nn.
  destruct (Pos.to_uint p) as [|d|d|d|d|d|d|d|d|d|d];
    [contradiction|exfalso; now apply (Z0 d)|..];
    cbn [NilEmpty.string_of_uint];
    change (py (String ?a ?s)) with (Z.of_N (N_of_ascii a) :: py s);
    eexists; eexists; (split; [reflexivity|]); vm_compute; split; discriminate.
Qed.

Lemma repr_int_length n k :
  0 <= n -> (1 <= k)%nat ->
  (List.length (repr_int n) <= k)%nat <-> n < 10 ^ Z.of_nat k.
Proof.
  intros Hn Hk. destruct n as [|p|p]; [| |lia].
  - cbn [repr_int]. split; intros _.
    + apply Z.pow_pos_nonneg; lia.
    + exact Hk.
  - pose proof (int_of_repr_int (Z.pos p) Hn) as V.
    rewrite repr_int_pos in *.
    destruct (to_uint_head p) as (c & text & E & Hc). rewrite E in *.
    rewrite int_of_digits_cons, digit_of_ascii in V by lia.
    pose proof (int_of_digits_lt text) as B.
    set (m := List.length text) in *. cbn [List.length].
    assert (P : 0 < 10 ^ Z.of_nat m) by (apply Z.pow_pos_nonneg; lia).
    assert (L : 10 ^ Z.of_nat m <= Z.pos p) by nia.
    assert (U : Z.pos p < 10 ^ Z.of_nat (S m)).
    { rewrite Nat2Z.inj_succ, Z.pow_succ_r by lia. nia. }
    split; intros H.
    + eapply Z.lt_le_trans; [exact U|]. apply Z.pow_le_mono_r; lia.
    + destruct (le_lt_dec (S m) k) as [G|G]; [exact G|]. exfalso.
      assert (10 ^ Z.of_nat k <= 10 ^ Z.of_nat m)
        by (apply Z.pow_le_mono_r; lia).
      lia.
Qed.

Lemma str_of_int_none n :
  str_of_int n = None <-> 10 ^ max_str_digits <= Z.abs n.
Proof.
  unfold str_of_int.
  pose proof (repr_int_length (Z.abs n) 4300 (Z.abs_nonneg n)
                              ltac:(lia)) as R.
  change (Z.of_nat 4300) with max_str_digits in R.
  assert (M : max_str_digits = 4300) by reflexivity.
  destruct (max_str_digits <? Z.of_nat (List.length (repr_int (Z.abs n))))
    eqn:E.
  - apply Z.ltb_lt in E. rewrite M in E.
    split; [|reflexivity]. intros _.
    destruct (Z_lt_le_dec (Z.abs n) (10 ^ max_str_digits)) as [G|G];
      [|exact G].
    apply R in G. lia.
  - apply Z.ltb_ge in E. rewrite M in E.
    split; [discriminate|]. intros G. exfalso.
    assert (Z.abs n < 10 ^ max_str_digits) by (apply R; lia). lia.
Qed.

Lemma str_of_int_some n :
  Z.abs n < 10 ^ max_str_digits -> str_of_int n = Some (repr_int n).
Proof.
  intros H. destruct (str_of_int n) as [t|] eqn:E.
  - unfold str_of_int in E.
    destruct (max_str_digits <? _); [discriminate|]. now symmetry.
  - apply str_of_int_none in E. lia.
Qed.

(** * Lemmas on the parser *)

Lemma split_once_none s : no_bang s = true -> split_once 33 s = None.
Proof.
  induction s as [|c s IH]; simpl; [reflexivity|].
  intros H. apply andb_true_iff in H as [H1 H2].
  apply negb_true_iff in H1. now rewrite H1, (IH H2).
Qed.

Lemma split_once_first a b :
  no_bang a = true -> split_once 33 (a ++ 33 :: b) = Some (a, b).
Proof.
  induction a as [|c a IH]; simpl; [reflexivity|].
  intros H. apply andb_true_iff in H as [H1 H2].
  apply negb_true_iff in H1. now rewrite H1, (IH H2).
Qed.

Lemma no_bang_app a b : no_bang (a ++ b) = no_bang a && no_bang b.
Proof. apply forallb_app. Qed.

Lemma upper_no_bang col : forallb Re.is_upper col = true -> no_bang col = true.
Proof.
  unfold no_bang. rewrite !forallb_forall. intros H c Hc.
  specialize (H c Hc). unfold Re.is_upper in H. lia.
Qed.

Lemma digit_no_bang row : forallb Re.is_digit row = true -> no_bang row = true.
Proof.
  unfold no_bang. rewrite !forallb_forall. intros H c Hc.
  specialize (H c Hc). apply is_digit_cases in H. lia.
Qed.

Lemma heads_app cls a b : a <> [] -> heads cls (a ++ b) = heads cls a.
Proof. destruct a; [contradiction|reflexivity]. Qed.

Lemma heads_all cls a : a <> [] -> forallb cls a = true -> heads cls a = true.
Proof.
  destruct a as [|c a]; [contradiction|]. simpl.
  intros _ H. now apply andb_true_iff in H as [H _].
Qed.

Lemma row_not_upper row rest : is_row row -> heads Re.is_upper (row ++ rest) = false.
Proof.
  intros [Hn Hd]. rewrite heads_app by assumption.
  destruct row as [|c row]; [contradiction|]. simpl in *.
  apply andb_true_iff in Hd as [Hd _]. now apply digit_not_upper.
Qed.

Lemma scan_cell_some s col row rest :
  scan_cell s = Some (col, row, rest) ->
  s = col ++ row ++ rest /\ is_col col /\ is_row row
  /\ heads Re.is_digit rest = false.
Proof.
  unfold scan_cell. intros H.
  destruct (take Re.is_upper s) as [[g1 s1]|] eqn:E1; [|discriminate].
  destruct (take Re.is_digit s1) as [[g2 s2]|] eqn:E2; [|discriminate].
  inversion H; subst; clear H.
  apply take_some in E1 as (-> & Hn1 & Ha1 & _).
  apply take_some in E2 as (-> & Hn2 & Ha2 & Hr).
  repeat split; assumption.
Qed.

Lemma scan_cell_exact col row rest :
  is_col col -> is_row row -> heads Re.is_digit rest = false ->
  scan_cell (col ++ row ++ rest) = Some (col, row, rest).
Proof.
  intros [Hn1 Ha1] Hrow Hrest. unfold scan_cell.
  rewrite take_exact; auto using row_not_upper.
  destruct Hrow as [Hn2 Ha2]. now rewrite take_exact.
Qed.

Lemma parse_range_scan s :
  parse_range s
  = match scan_range s with
    | Some (c1, r1, c2, r2) =>
        Some (mkIndices (int_of_digits r1 - 1) (int_of_digits r2)
                        (col_index c1) (col_index c2 + 1))
    | None =>
        match scan_cell s with
        | Some (col, row, _) =>
            Some (mkIndices (int_of_digits row - 1) (int_of_digits row)
                            (col_index col) (col_index col + 1))
        | None => None
        end
    end.
Proof.
  unfold parse_range. rewrite match_range_scan, match_cell_scan.
  destruct (scan_range s) as [[[[c1 r1] c2] r2]|]; [reflexivity|].
  now destruct (scan_cell s) as [[[col row] rest]|].
Qed.

Lemma scan_range_some s c1 r1 c2 r2 :
  scan_range s = Some (c1, r1, c2, r2) ->
  is_col c1 /\ is_row r1 /\ is_col c2 /\ is_row r2
  /\ exists rest, s = c1 ++ r1 ++ 58 :: c2 ++ r2 ++ rest
                  /\ heads Re.is_digit rest = false.
Proof.
  unfold scan_range. intros H.
  destruct (scan_cell s) as [[[a b] t]|] eqn:E1; [|discriminate].
  destruct t as [|c s3]; [discriminate|].
  destruct (c =? 58) eqn:Ec; [|discriminate]. apply Z.eqb_eq in Ec. subst c.
  destruct (scan_cell s3) as [[[a' b'] t']|] eqn:E2; [|discriminate].
  inversion H; subst; clear H.
  apply scan_cell_some in E1 as (-> & H1 & H2 & _).
  apply scan_cell_some in E2 as (-> & H3 & H4 & H5).
  do 4 (split; [assumption|]). now exists t'.
Qed.

Lemma scan_range_exact c1 r1 c2 r2 rest :
  is_col c1 -> is_row r1 -> is_col c2 -> is_row r2 ->
  heads Re.is_digit rest = false ->
  scan_range (c1 ++ r1 ++ 58 :: c2 ++ r2 ++ rest) = Some (c1, r1, c2, r2).
Proof.
  intros H1 H2 H3 H4 H5. unfold scan_range.
  rewrite scan_cell_exact by (auto; reflexivity).
  simpl. now rewrite scan_cell_exact.
Qed.

Lemma parse_sheetless s :
  no_bang s = true -> _parse_a1_to_indices s = (None, parse_range s).
Proof.
  intros H. unfold _parse_a1_to_indices, split_sheet.
  now rewrite split_once_none.
Qed.

Lemma parse_with_sheet a b :
  no_bang a = true ->
  _parse_a1_to_indices (a ++ 33 :: b) = (Some a, parse_range b).
Proof.
  intros H. unfold _parse_a1_to_indices, split_sheet.
  now rewrite split_once_first.
Qed.

Lemma parse_snd s :
  snd (_parse_a1_to_indices s) = parse_range (snd (split_sheet s)).
Proof.
  unfold _parse_a1_to_indices. now destruct (split_sheet s).
Qed.

Lemma split_sheet_no_bang s : no_bang s = true -> split_sheet s = (None, s).
Proof. intros H. unfold split_sheet. now rewrite split_once_none. Qed.

Lemma split_sheet_first a b :
  no_bang a = true -> split_sheet (a ++ 33 :: b) = (Some a, b).
Proof. intros H. unfold split_sheet. now rewrite split_once_first. Qed.

Lemma parse_raises_scan s :
  parse_raises s
  = match scan_range (snd (split_sheet s)) with
    | Some (_, r1, _, r2) => int_raises r1 || int_raises r2
    | None =>
        match scan_cell (snd (split_sheet s)) with
        | Some (_, row, _) => int_raises row
        | None => false
        end
    end.
Proof.
  unfold parse_raises. rewrite match_range_scan, match_cell_scan.
  destruct (scan_range _) as [[[[c1 r1] c2] r2]|]; [reflexivity|].
  now destruct (scan_cell _) as [[[col row] rest]|].
Qed.

Lemma parse_raises_two_corners s c1 r1 c2 r2 rest :
  is_col c1 -> is_row r1 -> is_col c2 -> is_row r2 ->
  heads Re.is_digit rest = false ->
  snd (split_sheet s) = c1 ++ r1 ++ 58 :: c2 ++ r2 ++ rest ->
  parse_raises s = int_raises r1 || int_raises r2.
Proof.
  intros H1 H2 H3 H4 H5 E. rewrite parse_raises_scan, E.
  now rewrite scan_range_exact.
Qed.

Lemma parse_raises_one_cell s col row rest :
  is_col col -> is_row row ->
  heads Re.is_digit rest = false -> continues_range rest = false ->
  snd (split_sheet s) = col ++ row ++ rest ->
  parse_raises s = int_raises row.
Proof.
  intros H1 H2 Ht Hc E. rewrite parse_raises_scan, E.
  unfold scan_range. rewrite scan_cell_exact by assumption.
  destruct rest as [|c s3]; [reflexivity|].
  unfold continues_range in Hc. rewrite match_cell_scan in Hc.
  destruct (c =? 58); [|reflexivity].
  destruct (scan_cell s3) as [[[a b] t']|]; [discriminate|reflexivity].
Qed.

Lemma parse_a1_ok s :
  parse_raises s = false -> parse_a1 s = Ok (_parse_a1_to_indices s).
Proof. intros H. unfold parse_a1. now rewrite H. Qed.

Lemma parse_a1_ext a b :
  parse_raises a = parse_raises b ->
  _parse_a1_to_indices a = _parse_a1_to_indices b ->
  parse_a1 a = parse_a1 b.
Proof. intros R T. unfold parse_a1. now rewrite R, T. Qed.

Lemma parse_a1_inv s p :
  parse_a1 s = Ok p -> parse_raises s = false /\ p = _parse_a1_to_indices s.
Proof.
  unfold parse_a1. destruct (parse_raises s); [discriminate|].
  intros H. injection H as <-. now split.
Qed.

Lemma parse_a1_raise s e :
  parse_a1 s = Raise e -> parse_raises s = true /\ e = ValueError.
Proof.
  unfold parse_a1. destruct (parse_raises s); [|discriminate].
  intros H. injection H as <-. now split.
Qed.

Lemma parse_a1_two_corners sheet c1 r1 c2 r2 :
  no_bang sheet = true ->
  is_col c1 -> is_row r1 -> is_col c2 -> is_row r2 ->
  parse_a1 (sheet ++ py "!" ++ c1 ++ r1 ++ py ":" ++ c2 ++ r2)
  = if int_raises r1 || int_raises r2 then Raise ValueError
    else Ok (Some sheet,
             Some (mkIndices (int_of_digits r1 - 1) (int_of_digits r2)
                             (col_index c1) (col_index c2 + 1))).
Proof.
  intros Hs H1 H2 H3 H4.
  change (py "!" ++ c1 ++ r1 ++ py ":" ++ c2 ++ r2)
    with (33 :: c1 ++ r1 ++ 58 :: c2 ++ r2).
  assert (R : parse_raises (sheet ++ 33 :: c1 ++ r1 ++ 58 :: c2 ++ r2)
              = int_raises r1 || int_raises r2).
  { apply (parse_raises_two_corners _ c1 r1 c2 r2 []); auto.
    rewrite split_sheet_first by exact Hs. now rewrite app_nil_r. }
  assert (P : _parse_a1_to_indices (sheet ++ 33 :: c1 ++ r1 ++ 58 :: c2 ++ r2)
              = (Some sheet,
                 Some (mkIndices (int_of_digits r1 - 1) (int_of_digits r2)
                                 (col_index c1) (col_index c2 + 1)))).
  { rewrite parse_with_sheet by exact Hs. f_equal.
    rewrite parse_range_scan.
    replace (c1 ++ r1 ++ 58 :: c2 ++ r2)
      with (c1 ++ r1 ++ 58 :: c2 ++ r2 ++ []) by now rewrite app_nil_r.
    now rewrite scan_range_exact. }
  unfold parse_a1. now rewrite R, P.
Qed.


(** * Lemmas on the reports of the tools *)



(** * The claims *)

(** C2.  The overlap test of [read_sheet_values] holds for a parsed read
    range [r] and a merged region [merge] exactly when
    [r.startRow < m.endRow], [r.endRow > m.startRow],
    [r.startCol < m.endCol] and [r.endCol > m.startCol]; rectangles that
    only touch along a row or a column edge do not overlap, and the two
    examples of the spec come out as it says. *)
Theorem merge_overlap_is_half_open_intersection :
  (forall r merge,
     merge_overlaps (Some r) merge = true <->
     start_row r < m_end_row merge /\ end_row r > m_start_row merge /\
     start_col r < m_end_col merge /\ end_col r > m_start_col merge)
  /\ (forall r merge,
        end_row r = m_start_row merge \/ start_row r = m_end_row merge \/
        end_col r = m_start_col merge \/ start_col r = m_end_col merge ->
        merge_overlaps (Some r) merge = false)
  /\ merge_overlaps (Some (mkIndices 0 3 0 2))
       (mkGridRange (Some 2) (Some 5) (Some 1) (Some 4)) = true
  /\ merge_overlaps (Some (mkIndices 0 2 0 2))
       (mkGridRange (Some 2) (Some 4) (Some 0) (Some 2)) = false.
Proof.
  split; [|split; [|split; reflexivity]].
  - intros r merge. unfold merge_overlaps.
    rewrite !andb_true_iff, !Z.ltb_lt, !Z.gtb_gt. lia.
  - intros r merge H. unfold merge_overlaps.
    apply not_true_is_false.
    rewrite !andb_true_iff, !Z.ltb_lt, !Z.gtb_gt. lia.
Qed.

Lemma merge_overlap_witness :
  merge_overlaps (Some (mkIndices 0 2 0 2))
    (mkGridRange (Some 2) (Some 4) None (Some 2)) = false
  /\ merge_overlaps (Some (mkIndices 0 3 0 2))
       (mkGridRange (Some 2) (Some 5) (Some 1) (Some 4)) = true.
Proof.
  split.
  - apply (proj1 (proj2 merge_overlap_is_half_open_intersection)).
    left. reflexivity.
  - apply (proj1 merge_overlap_is_half_open_intersection).
    cbv. repeat split.
Defined.

(** With no failing conversion to A1 text, the loop keeps exactly the
    merges that pass the test, in order. *)
Lemma collect_merges_filter parsed merges acc :
  (forall m, In m merges ->
     _convert_indices_to_a1 (m_start_row m) (m_end_row m)
                            (m_start_col m) (m_end_col m) <> None) ->
  map (fun mr => (mr_start_row mr, mr_end_row mr, mr_start_col mr, mr_end_col mr))
      (collect_merges parsed merges acc)
  = map (fun mr => (mr_start_row mr, mr_end_row mr, mr_start_col mr, mr_end_col mr)) acc
    ++ map (fun m => (m_start_row m, m_end_row m, m_start_col m, m_end_col m))
           (filter (merge_overlaps parsed) merges).
Proof.
  revert acc. induction merges as [|m merges IH]; intros acc H; simpl.
  - now rewrite app_nil_r.
  - destruct (merge_overlaps parsed m).
    + destruct (_convert_indices_to_a1 _ _ _ _) as [a1|] eqn:E.
      * rewrite IH by (intros; apply H; now right).
        rewrite map_app, <- app_assoc. reflexivity.
      * exfalso. apply (H m); [now left|exact E].
    + apply IH. intros; apply H; now right.
Qed.



(** C3.  On every text the parser accepts, the column bounds are the
    positional base-26 values (A=0 .. Z=25, most significant letter
    first) of the column tokens that the pattern matched: [startCol] is
    the value of the first token and [endCol] is one more than the value
    of the last one. *)
Theorem column_index_is_positional (text : string) (sheet : option str) (r : Indices) :
  _parse_a1_to_indices (py text) = (sheet, Some r) ->
  match Re.match_range (snd (split_sheet (py text))) with
  | Some (c1, _, c2, _) =>
      is_col c1 /\ is_col c2 /\
      start_col r = positional_value c1 /\ end_col r = positional_value c2 + 1
  | None =>
      exists col row,
        Re.match_cell (snd (split_sheet (py text))) = Some (col, row) /\
        is_col col /\
        start_col r = positional_value col /\ end_col r = positional_value col + 1
  end.
Proof.
  intros H. apply (f_equal snd) in H. rewrite parse_snd in H. simpl in H.
  unfold parse_range in H.
  destruct (Re.match_range _) as [[[[c1 r1] c2] r2]|] eqn:E.
  - inversion H; subst; clear H. simpl.
    rewrite match_range_scan in E.
    apply scan_range_some in E as (H1 & _ & H3 & _).
    rewrite !col_index_positional. tauto.
  - destruct (Re.match_cell _) as [[col row]|] eqn:E'; [|discriminate].
    inversion H; subst; clear H. simpl.
    exists col, row. rewrite !col_index_positional.
    rewrite match_cell_scan in E'.
    destruct (scan_cell _) as [[[a b] t]|] eqn:Es; [|discriminate].
    inversion E'; subst. apply scan_cell_some in Es. tauto.
Qed.

Lemma column_index_is_positional_witness :
  _parse_a1_to_indices (py "Data!CB7:ZZ9")
  = (Some (py "Data"), Some (mkIndices 6 9 53 676))
  /\ 53 = positional_value (py "CB") /\ 676 = positional_value (py "ZZ") + 1.
Proof.
  split; [reflexivity|].
  exact (proj2 (proj2 (column_index_is_positional "Data!CB7:ZZ9"
                         (Some (py "Data")) (mkIndices 6 9 53 676) eq_refl))).
Defined.

(** C4.  What the parser returns for the five texts of the claim: "A1"
    and "Z1" give the columns 0 and 25, but "AA1", "AZ1" and "BA1" give
    0, 25 and 26, not 26, 51 and 52, although [col_to_letter] writes the
    columns 26, 51 and 52 as "AA", "AZ" and "BA". *)
Theorem decoded_columns_of_the_examples :
  decoded_col "A1" = Some 0 /\ decoded_col "Z1" = Some 25
  /\ decoded_col "AA1" = Some 0 /\ decoded_col "AZ1" = Some 25
  /\ decoded_col "BA1" = Some 26
  /\ col_to_letter 26 = Some (py "AA") /\ col_to_letter 51 = Some (py "AZ")
  /\ col_to_letter 52 = Some (py "BA").
Proof. repeat split; reflexivity. Qed.

(** C1.  The round trip fails at the first two-letter column: the
    rectangle (0, 1, 26, 27) is written as "AA1:AA1", which is read back
    as (0, 1, 0, 1). *)
Theorem roundtrip_fails_at_column_26 :
  _convert_indices_to_a1 0 1 26 27 = Some (py "AA1:AA1")
  /\ _parse_a1_to_indices (py "AA1:AA1") = (None, Some (mkIndices 0 1 0 1))
  /\ mkIndices 0 1 0 1 <> mkIndices 0 1 26 27.
Proof. repeat split; try reflexivity. discriminate. Qed.

(** C5 as stated fails: "A0" is parsed. *)
Lemma row_zero_is_parsed :
  ~ (snd (_parse_a1_to_indices (py "")) = None
     /\ snd (_parse_a1_to_indices (py "1A")) = None
     /\ snd (_parse_a1_to_indices (py "A0")) = None).
Proof. intros (_ & _ & H). discriminate H. Qed.

(** C5, amended.  For the empty text and for "1A" the parser returns no
    coordinates (the four bounds are [None]; nothing is raised); "A0" is
    parsed, with [startRow = -1], [endRow = 0], [startCol = 0] and
    [endCol = 1]. *)
Theorem malformed_inputs :
  _parse_a1_to_indices (py "") = (None, None)
  /\ _parse_a1_to_indices (py "1A") = (None, None)
  /\ _parse_a1_to_indices (py "A0") = (None, Some (mkIndices (-1) 0 0 1)).
Proof. repeat split; reflexivity. Qed.

(** C6 as stated fails, on "A0" for the sign of [startRow] and on
    "B2:A1" for the order of the bounds. *)
Lemma parse_result_not_always_a_rectangle :
  ~ (forall (text : string) sheet r,
       _parse_a1_to_indices (py text) = (sheet, Some r) ->
       0 <= start_row r /\ 0 <= end_row r /\ 0 <= start_col r /\ 0 <= end_col r
       /\ end_row r > start_row r /\ end_col r > start_col r).
Proof.
  intros H.
  specialize (H "A0"%string None (mkIndices (-1) 0 0 1) eq_refl).
  simpl in H. lia.
Qed.

Example parse_B2_A1 :
  _parse_a1_to_indices (py "B2:A1") = (None, Some (mkIndices 1 1 1 1)).
Proof. reflexivity. Qed.

(** C6, amended.  On every text, of any characters, for which the
    parser returns a rectangle, [startCol] and
    [endRow] are not negative, [endCol] is positive and [startRow] is at
    least -1.  A single-cell parse has [endRow = startRow + 1] and
    [endCol = startCol + 1]; a two-corner parse has [endRow > startRow]
    exactly when the second row number is not below the first, and
    [endCol > startCol] exactly when the second column is not left of
    the first. *)
Theorem parse_result_bounds (text : str) (sheet : option str) (r : Indices) :
  parse_a1 text = Ok (sheet, Some r) ->
  0 <= start_col r /\ 0 < end_col r /\ 0 <= end_row r /\ -1 <= start_row r
  /\ match Re.match_range (snd (split_sheet text)) with
     | None => end_row r = start_row r + 1 /\ end_col r = start_col r + 1
     | Some (c1, r1, c2, r2) =>
         (end_row r > start_row r <-> int_of_digits r1 <= int_of_digits r2)
         /\ (end_col r > start_col r <-> col_index c1 <= col_index c2)
     end.
Proof.
  intros H. apply parse_a1_inv in H as [_ H]. symmetry in H.
  apply (f_equal snd) in H. rewrite parse_snd in H. simpl in H.
  unfold parse_range in H.
  destruct (Re.match_range _) as [[[[c1 r1] c2] r2]|] eqn:E.
  - inversion H; subst; clear H. simpl.
    rewrite match_range_scan in E.
    apply scan_range_some in E as ([_ H1] & [_ H2] & [_ H3] & [_ H4] & _).
    apply col_index_nonneg in H1, H3. apply int_of_digits_nonneg in H2, H4.
    lia.
  - destruct (Re.match_cell _) as [[col row]|] eqn:E'; [|discriminate].
    inversion H; subst; clear H. simpl.
    rewrite match_cell_scan in E'.
    destruct (scan_cell _) as [[[a b] t]|] eqn:Es; [|discriminate].
    inversion E'; subst.
    apply scan_cell_some in Es as (_ & [_ H1] & [_ H2] & _).
    apply col_index_nonneg in H1. apply int_of_digits_nonneg in H2. lia.
Qed.

Lemma parse_result_bounds_witness :
  parse_a1 (py "Sheet1!B2:D10")
  = Ok (Some (py "Sheet1"), Some (mkIndices 1 10 1 4))
  /\ 0 <= start_col (mkIndices 1 10 1 4) /\ 0 < end_col (mkIndices 1 10 1 4)
  /\ 0 <= end_row (mkIndices 1 10 1 4) /\ -1 <= start_row (mkIndices 1 10 1 4).
Proof.
  split; [reflexivity|].
  pose proof (parse_result_bounds (py "Sheet1!B2:D10") (Some (py "Sheet1"))
                (mkIndices 1 10 1 4) eq_refl) as H.
  tauto.
Defined.

(** C7 as stated fails: with two ['!'] the sheet name stops at the first
    one, and the text after it, which still holds a ['!'], is what gets
    parsed as the range. *)
Lemma sheet_name_not_up_to_last_bang :
  ~ (forall a b : str,
       no_bang b = true ->
       _parse_a1_to_indices (a ++ py "!" ++ b) = (Some a, parse_range b)).
Proof.
  intros H. specialize (H (py "a!b") (py "A1") eq_refl).
  vm_compute in H. discriminate H.
Qed.

Example parse_two_bangs :
  _parse_a1_to_indices (py "a!b!A1") = (Some (py "a"), None).
Proof. reflexivity. Qed.

(** C7, amended.  For a text that contains a ['!'], the text before the
    first ['!'] is the sheet name and all the text after that ['!'] is
    parsed as the cell span; for a text with no ['!'] the sheet name is
    [None] and the whole text is parsed as the cell span. *)
Theorem sheet_name_is_text_before_first_bang :
  (forall a b : str,
     no_bang a = true ->
     _parse_a1_to_indices (a ++ py "!" ++ b) = (Some a, parse_range b))
  /\ (forall s : str,
        no_bang s = true -> _parse_a1_to_indices s = (None, parse_range s)).
Proof.
  split.
  - intros a b H. now apply parse_with_sheet.
  - intros s H. now apply parse_sheetless.
Qed.

Lemma sheet_name_is_text_before_first_bang_witness :
  _parse_a1_to_indices (py "Q1" ++ py "!" ++ py "x!B2")
  = (Some (py "Q1"), parse_range (py "x!B2"))
  /\ _parse_a1_to_indices (py "B2:D10") = (None, parse_range (py "B2:D10")).
Proof.
  split.
  - apply (proj1 sheet_name_is_text_before_first_bang). reflexivity.
  - apply (proj2 sheet_name_is_text_before_first_bang). reflexivity.
Defined.

(** C9 as stated fails: "b2" is not parsed, "B2" is. *)
Lemma lowercase_cell_differs :
  _parse_a1_to_indices (py "b2") <> _parse_a1_to_indices (py "B2").
Proof. discriminate. Qed.

Example parse_lowercase_examples :
  _parse_a1_to_indices (py "b2") = (None, None)
  /\ _parse_a1_to_indices (py "sheet1!a1:c4") = (Some (py "sheet1"), None)
  /\ _parse_a1_to_indices (py "A1:c4") = (None, Some (mkIndices 0 1 0 1)).
Proof. repeat split; reflexivity. Qed.

(** C9, amended.  The parser matches column letters as they are written
    and only accepts A-Z: a text, of any characters, whose cell span
    starts with a lower-case letter a-z is not parsed, whatever follows,
    and the call returns the sheet name with no coordinates.  So "b2" and
    "sheet1!a1:c4" give no coordinates, while "B2" gives (1, 2, 1, 2). *)
Theorem lowercase_column_not_parsed :
  (forall (text : str) (c : char) (rest : str),
      snd (split_sheet text) = c :: rest ->
      is_lower c = true ->
      parse_a1 text = Ok (fst (split_sheet text), None))
  /\ parse_a1 (py "b2") = Ok (None, None)
  /\ parse_a1 (py "sheet1!a1:c4") = Ok (Some (py "sheet1"), None)
  /\ parse_a1 (py "B2") = Ok (None, Some (mkIndices 1 2 1 2)).
Proof.
  split; [|repeat split; reflexivity].
  intros text c rest Hs Hc.
  assert (Hu : Re.is_upper c = false)
    by (unfold is_lower in Hc; unfold Re.is_upper; lia).
  assert (E : scan_cell (c :: rest) = None).
  { unfold scan_cell.
    assert (T : take Re.is_upper (c :: rest) = None) by now apply take_none.
    now rewrite T. }
  assert (R : scan_range (c :: rest) = None)
    by (unfold scan_range; now rewrite E).
  rewrite parse_a1_ok by (now rewrite parse_raises_scan, Hs, R, E).
  f_equal. unfold _parse_a1_to_indices.
  destruct (split_sheet text) as [sheet span']. simpl in *. subst span'.
  f_equal. now rewrite parse_range_scan, R, E.
Qed.

Lemma lowercase_column_not_parsed_witness :
  parse_a1 (py "Data!x9") = Ok (Some (py "Data"), None).
Proof.
  apply (proj1 lowercase_column_not_parsed (py "Data!x9") 120 (py "9"));
    reflexivity.
Defined.

Lemma parse_range_trailing_two c1 r1 c2 r2 t :
  is_col c1 -> is_row r1 -> is_col c2 -> is_row r2 ->
  heads Re.is_digit t = false ->
  parse_range (c1 ++ r1 ++ 58 :: c2 ++ r2 ++ t)
  = Some (mkIndices (int_of_digits r1 - 1) (int_of_digits r2)
                    (col_index c1) (col_index c2 + 1)).
Proof.
  intros H1 H2 H3 H4 Ht.
  now rewrite parse_range_scan, scan_range_exact.
Qed.

Lemma parse_range_trailing_one c1 r1 t :
  is_col c1 -> is_row r1 ->
  heads Re.is_digit t = false -> continues_range t = false ->
  parse_range (c1 ++ r1 ++ t)
  = Some (mkIndices (int_of_digits r1 - 1) (int_of_digits r1)
                    (col_index c1) (col_index c1 + 1)).
Proof.
  intros H1 H2 Ht Hc. rewrite parse_range_scan.
  unfold scan_range. rewrite scan_cell_exact by assumption.
  destruct t as [|c s3]; [reflexivity|].
  unfold continues_range in Hc. rewrite match_cell_scan in Hc.
  destruct (c =? 58); [|reflexivity].
  destruct (scan_cell s3) as [[[a b] t']|]; [discriminate|reflexivity].
Qed.

Lemma span_no_bang c1 r1 : is_col c1 -> is_row r1 -> no_bang (c1 ++ r1) = true.
Proof.
  intros [_ H1] [_ H2].
  now rewrite no_bang_app, upper_no_bang, digit_no_bang.
Qed.

Lemma range_no_bang c1 r1 c2 r2 t :
  is_col c1 -> is_row r1 -> is_col c2 -> is_row r2 -> no_bang t = true ->
  no_bang (c1 ++ r1 ++ 58 :: c2 ++ r2 ++ t) = true.
Proof.
  intros H1 H2 H3 H4 Ht.
  rewrite app_assoc, no_bang_app, span_no_bang by assumption.
  change (58 :: c2 ++ r2 ++ t) with ([58] ++ c2 ++ r2 ++ t).
  rewrite no_bang_app, app_assoc, no_bang_app, span_no_bang by assumption.
  now rewrite Ht.
Qed.

(** C10 as stated fails: a ['!'] in the trailing text turns the span
    into a sheet name, and a trailing digit lengthens the row number. *)
Lemma trailing_text_not_always_ignored :
  ~ (forall c1 r1 c2 r2 t : string,
       is_col (py c1) -> is_row (py r1) -> is_col (py c2) -> is_row (py r2) ->
       _parse_a1_to_indices (py (c1 ++ r1 ++ ":" ++ c2 ++ r2 ++ t))
       = _parse_a1_to_indices (py (c1 ++ r1 ++ ":" ++ c2 ++ r2))).
Proof.
  intros H.
  specialize (H "A" "1" "B" "2" "!C3")%string.
  assert (C : is_col (py "A") /\ is_row (py "1")
              /\ is_col (py "B") /\ is_row (py "2"))
    by (repeat split; discriminate || reflexivity).
  destruct C as (A1 & A2 & A3 & A4). specialize (H A1 A2 A3 A4).
  vm_compute in H. discriminate H.
Qed.

Example parse_trailing_examples :
  _parse_a1_to_indices (py "A1:B2xyz") = _parse_a1_to_indices (py "A1:B2")
  /\ _parse_a1_to_indices (py "A1:B2!C3")
     = (Some (py "A1:B2"), Some (mkIndices 2 3 2 3))
  /\ _parse_a1_to_indices (py "A1:B23") = (None, Some (mkIndices 0 23 0 2))
  /\ _parse_a1_to_indices (py "A12") = (None, Some (mkIndices 11 12 0 1)).
Proof. repeat split; reflexivity. Qed.

(** C10, amended.  A two-corner span followed by trailing text, of any
    characters, that holds no ['!'] and does not start with a digit is
    parsed like the span alone (the same tuple, or the same error of
    [int]), and so is a single cell followed by such a text that does not
    go on with [':'], column letters and a digit. *)
Theorem trailing_text_ignored :
  (forall c1 r1 c2 r2 t : str,
     is_col c1 -> is_row r1 -> is_col c2 -> is_row r2 ->
     no_bang t = true -> heads Re.is_digit t = false ->
     parse_a1 (c1 ++ r1 ++ py ":" ++ c2 ++ r2 ++ t)
     = parse_a1 (c1 ++ r1 ++ py ":" ++ c2 ++ r2))
  /\ (forall c1 r1 t : str,
        is_col c1 -> is_row r1 ->
        no_bang t = true -> heads Re.is_digit t = false ->
        continues_range t = false ->
        parse_a1 (c1 ++ r1 ++ t) = parse_a1 (c1 ++ r1)).
Proof.
  split.
  - intros c1 r1 c2 r2 t H1 H2 H3 H4 Hb Ht.
    change (py ":") with [58]. cbn [app].
    pose proof (range_no_bang _ _ _ _ [] H1 H2 H3 H4 eq_refl) as B.
    pose proof (range_no_bang _ _ _ _ t H1 H2 H3 H4 Hb) as B'.
    pose proof (parse_range_trailing_two _ _ _ _ [] H1 H2 H3 H4 eq_refl) as E.
    pose proof (parse_raises_two_corners
                  (c1 ++ r1 ++ 58 :: c2 ++ r2 ++ []) c1 r1 c2 r2 []
                  H1 H2 H3 H4 eq_refl) as P.
    rewrite split_sheet_no_bang in P by exact B.
    specialize (P eq_refl).
    rewrite app_nil_r in B, E, P.
    pose proof (parse_raises_two_corners
                  (c1 ++ r1 ++ 58 :: c2 ++ r2 ++ t) c1 r1 c2 r2 t
                  H1 H2 H3 H4 Ht) as P'.
    rewrite split_sheet_no_bang in P' by exact B'.
    specialize (P' eq_refl).
    apply parse_a1_ext; [etransitivity; [exact P'|symmetry; exact P]|].
    etransitivity; [apply parse_sheetless; exact B'|].
    etransitivity; [|symmetry; apply parse_sheetless; exact B].
    f_equal.
    etransitivity; [now apply parse_range_trailing_two|symmetry; exact E].
  - intros c1 r1 t H1 H2 Hb Ht Hc.
    pose proof (span_no_bang _ _ H1 H2) as B.
    assert (B' : no_bang (c1 ++ r1 ++ t) = true)
      by now rewrite app_assoc, no_bang_app, B.
    pose proof (parse_range_trailing_one _ _ [] H1 H2 eq_refl eq_refl) as E.
    pose proof (parse_raises_one_cell (c1 ++ r1 ++ []) c1 r1 []
                                      H1 H2 eq_refl eq_refl) as P.
    rewrite split_sheet_no_bang in P by (now rewrite app_nil_r).
    specialize (P eq_refl).
    rewrite app_nil_r in E, P.
    pose proof (parse_raises_one_cell (c1 ++ r1 ++ t) c1 r1 t
                                      H1 H2 Ht Hc) as P'.
    rewrite split_sheet_no_bang in P' by exact B'.
    specialize (P' eq_refl).
    apply parse_a1_ext; [etransitivity; [exact P'|symmetry; exact P]|].
    etransitivity; [apply parse_sheetless; exact B'|].
    etransitivity; [|symmetry; apply parse_sheetless; exact B].
    f_equal.
    etransitivity; [now apply parse_range_trailing_one|symmetry; exact E].
Qed.

Lemma trailing_text_ignored_witness :
  parse_a1 (py "A" ++ py "1" ++ py ":" ++ py "B" ++ py "2" ++ py "xyz")
  = parse_a1 (py "A" ++ py "1" ++ py ":" ++ py "B" ++ py "2")
  /\ parse_a1 (py "A" ++ py "1" ++ py ":x") = parse_a1 (py "A" ++ py "1").
Proof.
  split.
  - apply (proj1 trailing_text_ignored (py "A") (py "1") (py "B") (py "2")
                 (py "xyz"));
      try reflexivity; split; discriminate || reflexivity.
  - apply (proj2 trailing_text_ignored (py "A") (py "1") (py ":x"));
      try reflexivity; split; discriminate || reflexivity.
Defined.

(** * How far the round trip goes

    [col_to_letter] writes the columns 0..25 with one letter and the
    columns 26..701 with two, the first of which counts from A=1; the
    parser reads every letter from A=0.  A one-letter column therefore
    comes back unchanged and a two-letter column comes back 26 too
    small. *)

Lemma chr_in_range n : 0 <= n < 1114112 -> chr n = Some n.
Proof.
  intros H. unfold chr.
  replace ((0 <=? n) && (n <? 1114112)) with true; [reflexivity|].
  symmetry. apply andb_true_iff. split; lia.
Qed.

Lemma col_index_two a b : col_index [a; b] = 26 * (ord a - 65) + (ord b - 65).
Proof.
  change [a; b] with ([a] ++ [b]).
  now rewrite col_index_snoc, col_index_single.
Qed.

Lemma col_to_letter_read_back col :
  0 <= col < 702 ->
  exists l, col_to_letter col = Some l /\ is_col l
            /\ col_index l = read_back col.
Proof.
  intros H. unfold col_to_letter, read_back.
  destruct (col <? 26) eqn:E.
  - apply Z.ltb_lt in E. rewrite chr_in_range by lia.
    exists [65 + col]. split; [reflexivity|]. split.
    + split; [discriminate|]. cbn [forallb]. unfold Re.is_upper. lia.
    + rewrite col_index_single. unfold ord. lia.
  - apply Z.ltb_ge in E.
    assert (Q : 1 <= col / 26 <= 26 /\ 0 <= col mod 26 < 26
                /\ col = 26 * (col / 26) + col mod 26).
    { pose proof (Z.div_mod col 26). pose proof (Z.mod_pos_bound col 26).
      split; [|lia]. split.
      - apply Z.div_le_lower_bound; lia.
      - assert (col / 26 < 27) by (apply Z.div_lt_upper_bound; lia). lia. }
    destruct Q as (Q1 & Q2 & Q3).
    rewrite !chr_in_range by lia.
    exists [65 + col / 26 - 1; 65 + col mod 26].
    split; [reflexivity|]. split.
    + split; [discriminate|]. cbn [forallb]. unfold Re.is_upper. lia.
    + rewrite col_index_two. unfold ord. lia.
Qed.

Lemma repr_int_is_row n : 0 <= n -> is_row (repr_int n).
Proof. intros H. destruct (repr_int_digits n H). now split. Qed.

Lemma repr_int_short n :
  0 <= n < 10 ^ max_str_digits -> int_raises (repr_int n) = false.
Proof.
  intros H. unfold int_raises. apply Z.ltb_ge.
  assert (L : (List.length (repr_int n) <= 4300)%nat).
  { apply repr_int_length; [lia|lia|].
    change (Z.of_nat 4300) with max_str_digits. lia. }
  unfold max_str_digits. lia.
Qed.

Lemma below_limit n : n < 1000000 -> n < 10 ^ max_str_digits.
Proof.
  intros H. apply (Z.lt_le_trans _ (10 ^ 6)); [exact H|].
  apply Z.pow_le_mono_r; [reflexivity|]. unfold max_str_digits. lia.
Qed.

(** The rows are below [10 ^ max_str_digits], so that their texts are
    written. *)
Lemma roundtrip_up_to_two_letters sr er sc ec :
  0 <= sr -> sr + 1 < 10 ^ max_str_digits ->
  0 <= er < 10 ^ max_str_digits ->
  0 <= sc < 702 -> 0 < ec <= 702 ->
  exists text,
    _convert_indices_to_a1 sr er sc ec = Some text
    /\ _parse_a1_to_indices text
       = (None, Some (mkIndices sr er (read_back sc) (read_back (ec - 1) + 1))).
Proof.
  intros Hsr Hsr' Her Hsc Hec.
  destruct (col_to_letter_read_back sc Hsc) as (l1 & E1 & C1 & V1).
  destruct (col_to_letter_read_back (ec - 1)) as (l2 & E2 & C2 & V2); [lia|].
  unfold _convert_indices_to_a1. rewrite E1, E2.
  rewrite !str_of_int_some by lia.
  eexists. split; [reflexivity|].
  change (py ":" ++ l2 ++ repr_int er) with (58 :: l2 ++ repr_int er).
  assert (R1 : is_row (repr_int (sr + 1))) by (apply repr_int_is_row; lia).
  assert (R2 : is_row (repr_int er)) by (apply repr_int_is_row; lia).
  pose proof (range_no_bang _ _ _ _ [] C1 R1 C2 R2 eq_refl) as B.
  pose proof (parse_range_trailing_two _ _ _ _ [] C1 R1 C2 R2 eq_refl) as E.
  rewrite app_nil_r in B, E.
  etransitivity; [apply parse_sheetless; exact B|].
  f_equal. etransitivity; [exact E|].
  rewrite !int_of_repr_int, V1, V2 by lia.
  f_equal. f_equal. lia.
Qed.

(** The reading does not raise either. *)
Lemma roundtrip_checked sr er sc ec :
  0 <= sr -> sr + 1 < 10 ^ max_str_digits ->
  0 <= er < 10 ^ max_str_digits ->
  0 <= sc < 702 -> 0 < ec <= 702 ->
  exists text,
    _convert_indices_to_a1 sr er sc ec = Some text
    /\ parse_a1 text
       = Ok (None, Some (mkIndices sr er (read_back sc) (read_back (ec - 1) + 1))).
Proof.
  intros Hsr Hsr' Her Hsc Hec.
  destruct (roundtrip_up_to_two_letters sr er sc ec Hsr Hsr' Her Hsc Hec)
    as (text & E & P).
  exists text. split; [exact E|]. rewrite <- P. apply parse_a1_ok.
  destruct (col_to_letter_read_back sc Hsc) as (l1 & E1 & C1 & V1).
  destruct (col_to_letter_read_back (ec - 1)) as (l2 & E2 & C2 & V2); [lia|].
  unfold _convert_indices_to_a1 in E. rewrite E1, E2 in E.
  rewrite !str_of_int_some in E by lia. injection E as <-.
  change (py ":" ++ l2 ++ repr_int er) with (58 :: l2 ++ repr_int er).
  assert (R1 : is_row (repr_int (sr + 1))) by (apply repr_int_is_row; lia).
  assert (R2 : is_row (repr_int er)) by (apply repr_int_is_row; lia).
  pose proof (range_no_bang _ _ _ _ [] C1 R1 C2 R2 eq_refl) as B.
  rewrite app_nil_r in B.
  etransitivity.
  - apply (parse_raises_two_corners _ l1 (repr_int (sr + 1)) l2 (repr_int er) []);
      auto.
    rewrite app_nil_r.
    etransitivity; [apply f_equal, split_sheet_no_bang; exact B|reflexivity].
  - rewrite !repr_int_short by lia. reflexivity.
Qed.

(** The round trip of the spec holds on one-letter columns. *)
Lemma roundtrip_one_letter sr er sc ec :
  0 <= sr < er -> er < 10 ^ max_str_digits ->
  0 <= sc < ec -> ec <= 26 ->
  exists text,
    _convert_indices_to_a1 sr er sc ec = Some text
    /\ _parse_a1_to_indices text = (None, Some (mkIndices sr er sc ec)).
Proof.
  intros Hr Hr' Hc Hb.
  destruct (roundtrip_up_to_two_letters sr er sc ec) as (text & E & P);
    try lia.
  exists text. split; [exact E|]. rewrite P. unfold read_back.
  replace (sc <? 26) with true by (symmetry; apply Z.ltb_lt; lia).
  replace (ec - 1 <? 26) with true by (symmetry; apply Z.ltb_lt; lia).
  do 3 f_equal. lia.
Qed.

(** From the column 702 on, [col_to_letter] leaves the alphabet: its
    first character is the one after "Z". *)
Example col_to_letter_702 : col_to_letter 702 = Some (py "[A").
Proof. reflexivity. Qed.

(** * Further properties of the codec *)

(** X1.  A rectangle with [0 <= startRow < endRow], [endRow] of at most
    [max_str_digits] digits, and one-letter columns
    ([0 <= startCol < endCol <= 26]) is written by
    [_convert_indices_to_a1] without error, and [_parse_a1_to_indices]
    reads the text back, without error, as the same four bounds, with no
    sheet name. *)
Theorem one_letter_roundtrip sr er sc ec :
  0 <= sr < er -> er < 10 ^ max_str_digits ->
  0 <= sc < ec -> ec <= 26 ->
  exists text,
    _convert_indices_to_a1 sr er sc ec = Some text
    /\ parse_a1 text = Ok (None, Some (mkIndices sr er sc ec)).
Proof.
  intros Hr Hr' Hc Hb.
  destruct (roundtrip_checked sr er sc ec) as (text & E & P); try lia.
  exists text. split; [exact E|]. rewrite P. unfold read_back.
  replace (sc <? 26) with true by (symmetry; apply Z.ltb_lt; lia).
  replace (ec - 1 <? 26) with true by (symmetry; apply Z.ltb_lt; lia).
  do 4 f_equal. lia.
Qed.

Lemma one_letter_roundtrip_witness :
  exists text,
    _convert_indices_to_a1 1 10 1 4 = Some text
    /\ parse_a1 text = Ok (None, Some (mkIndices 1 10 1 4)).
Proof.
  apply (one_letter_roundtrip 1 10 1 4); try lia. apply below_limit; lia.
Defined.

(** X2.  A rectangle whose columns all have two letters
    ([26 <= startCol < endCol <= 702]), with [0 <= startRow < endRow] and
    [endRow] of at most [max_str_digits] digits, is written without error
    and read back, without error, with the same rows and with both column
    bounds 26 too small. *)
Theorem two_letter_columns_come_back_26_short sr er sc ec :
  0 <= sr < er -> er < 10 ^ max_str_digits ->
  26 <= sc < ec -> ec <= 702 ->
  exists text,
    _convert_indices_to_a1 sr er sc ec = Some text
    /\ parse_a1 text = Ok (None, Some (mkIndices sr er (sc - 26) (ec - 26))).
Proof.
  intros Hr Hr' Hc Hb.
  destruct (roundtrip_checked sr er sc ec) as (text & E & P); try lia.
  exists text. split; [exact E|]. rewrite P. unfold read_back.
  replace (sc <? 26) with false by (symmetry; apply Z.ltb_ge; lia).
  replace (ec - 1 <? 26) with false by (symmetry; apply Z.ltb_ge; lia).
  do 4 f_equal. lia.
Qed.

Lemma two_letter_columns_come_back_26_short_witness :
  exists text,
    _convert_indices_to_a1 0 5 26 30 = Some text
    /\ parse_a1 text = Ok (None, Some (mkIndices 0 5 0 4)).
Proof.
  apply (two_letter_columns_come_back_26_short 0 5 26 30); try lia.
  apply below_limit; lia.
Defined.

Lemma chr_none n : chr n = None <-> n < 0 \/ 1114112 <= n.
Proof.
  unfold chr.
  destruct ((0 <=? n) && (n <? 1114112)) eqn:E.
  - apply andb_true_iff in E. split; [discriminate|lia].
  - apply andb_false_iff in E. split; [lia|reflexivity].
Qed.

Lemma col_to_letter_none col :
  col_to_letter col = None <-> col < -65 \/ 28965248 <= col.
Proof.
  unfold col_to_letter. destruct (col <? 26) eqn:E.
  - apply Z.ltb_lt in E.
    destruct (chr (65 + col)) eqn:C.
    + split; [discriminate|]. intros H.
      assert (N : chr (65 + col) = None) by (apply chr_none; lia).
      congruence.
    + apply chr_none in C. split; [lia|reflexivity].
  - apply Z.ltb_ge in E.
    pose proof (Z.mod_pos_bound col 26 ltac:(lia)) as M.
    rewrite (chr_in_range (65 + col mod 26)) by lia.
    destruct (chr (65 + col / 26 - 1)) eqn:C.
    + split; [discriminate|]. intros [H|H]; [lia|].
      assert (1114048 <= col / 26) by (apply Z.div_le_lower_bound; lia).
      assert (N : chr (65 + col / 26 - 1) = None) by (apply chr_none; lia).
      congruence.
    + apply chr_none in C. split; [|reflexivity]. intros _. right.
      destruct C as [C|C].
      * assert (0 <= col / 26) by (apply Z.div_pos; lia). lia.
      * pose proof (Z.div_mod col 26 ltac:(lia)). lia.
Qed.

Lemma convert_none sr er sc ec :
  _convert_indices_to_a1 sr er sc ec = None <->
  (sc < -65 \/ 28965248 <= sc) \/ (ec - 1 < -65 \/ 28965248 <= ec - 1)
  \/ 10 ^ max_str_digits <= Z.abs (sr + 1)
  \/ 10 ^ max_str_digits <= Z.abs er.
Proof.
  unfold _convert_indices_to_a1.
  pose proof (col_to_letter_none sc) as N1.
  pose proof (col_to_letter_none (ec - 1)) as N2.
  pose proof (str_of_int_none (sr + 1)) as N3.
  pose proof (str_of_int_none er) as N4.
  destruct (col_to_letter sc) as [l1|];
    [|split; [intros _; left; now apply N1|reflexivity]].
  destruct (col_to_letter (ec - 1)) as [l2|];
    [|split; [intros _; right; left; now apply N2|reflexivity]].
  destruct (str_of_int (sr + 1)) as [first_row|];
    [|split; [intros _; right; right; left; now apply N3|reflexivity]].
  destruct (str_of_int er) as [last_row|];
    [|split; [intros _; right; right; right; now apply N4|reflexivity]].
  split; [discriminate|].
  intros [H|[H|[H|H]]].
  - now apply N1 in H.
  - now apply N2 in H.
  - now apply N3 in H.
  - now apply N4 in H.
Qed.

Lemma convert_defined sr er sc ec :
  Z.abs (sr + 1) < 10 ^ max_str_digits -> Z.abs er < 10 ^ max_str_digits ->
  -65 <= sc < 28965248 -> -65 <= ec - 1 < 28965248 ->
  _convert_indices_to_a1 sr er sc ec <> None.
Proof. intros H1 H2 H3 H4 N. apply convert_none in N. lia. Qed.


(** X4.  The range text that [get_spreadsheet_info] writes inline for a
    named range or a merge is, for all four integers, the text (or the
    error) of [_convert_indices_to_a1]. *)
Theorem info_a1_is_convert sr er sc ec :
  info_a1 sr er sc ec = _convert_indices_to_a1 sr er sc ec.
Proof.
  unfold info_a1, _convert_indices_to_a1.
  assert (E1 : col_letter sc = col_to_letter sc) by reflexivity.
  assert (E2 : col_letter_end ec = col_to_letter (ec - 1)).
  { unfold col_letter_end, col_to_letter.
    replace (ec <=? 26) with (ec - 1 <? 26)
      by (destruct (ec <=? 26) eqn:A, (ec - 1 <? 26) eqn:B; lia).
    replace (65 + ec - 1) with (65 + (ec - 1)) by lia. reflexivity. }
  now rewrite E1, E2.
Qed.

Lemma scan_cell_starts col row rest :
  is_col col -> is_row row -> scan_cell (col ++ row ++ rest) <> None.
Proof.
  intros [Hn1 Ha1] Hrow. unfold scan_cell.
  rewrite take_exact; auto using row_not_upper.
  destruct (take Re.is_digit (row ++ rest)) as [[g r]|] eqn:E; [discriminate|].
  apply take_none in E. destruct Hrow as [Hn2 Ha2].
  rewrite heads_app, heads_all in E by assumption. discriminate.
Qed.

Lemma parse_range_none s : parse_range s = None <-> scan_cell s = None.
Proof.
  rewrite parse_range_scan. unfold scan_range.
  destruct (scan_cell s) as [[[col row] rest]|].
  - split; [|discriminate]. intros H. exfalso.
    destruct rest as [|c s3]; [discriminate|].
    destruct (c =? 58); [|discriminate].
    destruct (scan_cell s3) as [[[a b] t]|]; discriminate.
  - tauto.
Qed.

(** X5.  On a text of any characters, the parser returns the sheet name
    with no coordinates exactly when the text after the sheet name does
    not start with one or more letters A-Z followed by a digit. *)
Theorem parse_fails_iff (text : str) :
  parse_a1 text = Ok (fst (split_sheet text), None) <->
  ~ exists col row rest,
      snd (split_sheet text) = col ++ row ++ rest
      /\ is_col col /\ is_row row.
Proof.
  split.
  - intros H (col & row & rest & E & Hc & Hr).
    apply parse_a1_inv in H as [_ H]. symmetry in H.
    apply (f_equal snd) in H. rewrite parse_snd in H. cbn [snd] in H.
    apply parse_range_none in H. rewrite E in H.
    now apply (scan_cell_starts col row rest).
  - intros H.
    assert (E : scan_cell (snd (split_sheet text)) = None).
    { destruct (scan_cell _) as [[[col row] rest]|] eqn:E; [|reflexivity].
      exfalso. apply H. exists col, row, rest.
      apply scan_cell_some in E. tauto. }
    rewrite parse_a1_ok.
    + f_equal. unfold _parse_a1_to_indices.
      destruct (split_sheet text) as [sheet span']. cbn [fst snd] in *.
      f_equal. now apply parse_range_none.
    + rewrite parse_raises_scan. unfold scan_range. now rewrite E.
Qed.

(** X6.  A text made of a sheet name without ['!'], a ['!'] and a
    well-formed span [<COL><ROW>:<COL><ROW>] makes the parser raise when
    one of the row numbers has more than [max_str_digits] digits, and is
    otherwise parsed to that sheet name, to the rows [row1 - 1] and [row2]
    and to the columns [value(col1)] and [value(col2) + 1]. *)
Theorem parse_qualified_range (sheet c1 r1 c2 r2 : str) :
  no_bang sheet = true ->
  is_col c1 -> is_row r1 -> is_col c2 -> is_row r2 ->
  parse_a1 (sheet ++ py "!" ++ c1 ++ r1 ++ py ":" ++ c2 ++ r2)
  = if int_raises r1 || int_raises r2 then Raise ValueError
    else Ok (Some sheet,
             Some (mkIndices (int_of_digits r1 - 1) (int_of_digits r2)
                             (col_index c1) (col_index c2 + 1))).
Proof. apply parse_a1_two_corners. Qed.

Lemma parse_qualified_range_witness :
  parse_a1
    (py "Data" ++ py "!" ++ py "B" ++ py "2" ++ py ":" ++ py "D" ++ py "10")
  = Ok (Some (py "Data"), Some (mkIndices 1 10 1 4)).
Proof.
  apply (parse_qualified_range (py "Data") (py "B") (py "2") (py "D") (py "10"));
    try reflexivity; split; discriminate || reflexivity.
Defined.

Lemma col_index_cons c col :
  col_index (c :: col)
  = (ord c - 65) * 26 ^ Z.of_nat (List.length col) + col_index col.
Proof.
  induction col as [|d col IH] using rev_ind.
  - rewrite col_index_single, col_index_nil. cbn [List.length Z.of_nat].
    rewrite Z.pow_0_r. lia.
  - rewrite app_comm_cons, !col_index_snoc, IH, length_app.
    cbn [List.length]. rewrite Nat.add_1_r, Nat2Z.inj_succ, Z.pow_succ_r by lia.
    ring.
Qed.

(** X7.  A leading "A" of a column token counts for nothing: the cell
    text "A" + col + row is parsed to the same result as col + row, so
    that "AB7" is read like "B7". *)
Theorem leading_A_is_ignored (col row : str) :
  is_col col -> is_row row ->
  _parse_a1_to_indices (py "A" ++ col ++ row)
  = _parse_a1_to_indices (col ++ row).
Proof.
  intros Hc Hr.
  assert (Hc' : is_col (py "A" ++ col)).
  { destruct Hc as [_ Hc]. split; [discriminate|]. exact Hc. }
  pose proof (parse_range_trailing_one _ _ [] Hc Hr eq_refl eq_refl) as E.
  pose proof (parse_range_trailing_one _ _ [] Hc' Hr eq_refl eq_refl) as E'.
  rewrite app_nil_r in E, E'.
  etransitivity;
    [apply parse_sheetless;
     change ((py "A" ++ col) ++ row) with (py "A" ++ col ++ row);
     exact (span_no_bang _ _ Hc' Hr)|].
  etransitivity; [|symmetry; apply parse_sheetless; now apply span_no_bang].
  f_equal. etransitivity; [exact E'|]. rewrite E.
  change (py "A" ++ col) with (65 :: col).
  rewrite col_index_cons. unfold ord. do 3 f_equal; lia.
Qed.

Lemma leading_A_is_ignored_witness :
  _parse_a1_to_indices (py "A" ++ py "B" ++ py "7")
  = _parse_a1_to_indices (py "B" ++ py "7").
Proof.
  apply (leading_A_is_ignored (py "B") (py "7"));
    split; discriminate || reflexivity.
Defined.

(** X8.  The value of a column token of [n] letters A-Z lies in
    [0 .. 26^n - 1]: tokens of two letters never decode above 675. *)
Theorem col_index_range (col : str) :
  forallb Re.is_upper col = true ->
  0 <= col_index col < 26 ^ Z.of_nat (List.length col).
Proof.
  induction col as [|c col IH] using rev_ind; intros H.
  - rewrite col_index_nil. cbn. lia.
  - rewrite forallb_app in H. apply andb_true_iff in H as [H1 H2].
    cbn [forallb] in H2. rewrite andb_true_r in H2. unfold Re.is_upper in H2.
    specialize (IH H1). rewrite col_index_snoc, length_app. cbn [List.length].
    rewrite Nat.add_1_r, Nat2Z.inj_succ, Z.pow_succ_r by lia.
    unfold ord. lia.
Qed.

Lemma col_index_range_witness :
  0 <= col_index (py "ZZ") < 26 ^ Z.of_nat (List.length (py "ZZ")).
Proof. apply (col_index_range (py "ZZ")). reflexivity. Defined.

(** * Further properties of the tools *)





(** X11.  When the bounds of the merges are in the range where
    [_convert_indices_to_a1] does not raise (columns from -65 to 28965247,
    row numbers of at most [max_str_digits] digits), [merged_regions]
    holds exactly the merges that pass the overlap test, in the order of
    the sheet. *)
Theorem merged_regions_are_the_overlapping_merges parsed merges :
  (forall m, In m merges ->
     -65 <= m_start_col m < 28965248 /\ -65 <= m_end_col m - 1 < 28965248
     /\ Z.abs (m_start_row m + 1) < 10 ^ max_str_digits
     /\ Z.abs (m_end_row m) < 10 ^ max_str_digits) ->
  map region_bounds (collect_merges parsed merges [])
  = map merge_bounds (filter (merge_overlaps parsed) merges).
Proof.
  intros H.
  apply (collect_merges_filter parsed merges []).
  intros m Hm. destruct (H m Hm) as (H1 & H2 & H3 & H4).
  now apply convert_defined.
Qed.

Lemma merged_regions_are_the_overlapping_merges_witness :
  map region_bounds
      (collect_merges (Some (mkIndices 0 3 0 2))
         [mkGridRange (Some 2) (Some 5) (Some 1) (Some 4);
          mkGridRange (Some 5) (Some 6) None (Some 2)] [])
  = [(2, 5, 1, 4)].
Proof.
  apply (merged_regions_are_the_overlapping_merges
           (Some (mkIndices 0 3 0 2))
           [mkGridRange (Some 2) (Some 5) (Some 1) (Some 4);
            mkGridRange (Some 5) (Some 6) None (Some 2)]).
  intros m [<-|[<-|[]]]; repeat split;
    try (apply below_limit; reflexivity); now vm_compute.
Defined.

Lemma str_eqb_eq a b : str_eqb a b = true <-> a = b.
Proof.
  unfold str_eqb. destruct (list_eq_dec Z.eq_dec a b); split;
    congruence || discriminate.
Qed.

Lemma title_is_some t name : title_is t (Some name) = true <-> Some t = Some name.
Proof.
  simpl. rewrite str_eqb_eq. split; congruence.
Qed.

Lemma find_sheet_id_none sheets sheet_name :
  (forall s, In s sheets -> title s <> None /\ title s <> sheet_name) ->
  find_sheet_id sheets sheet_name = Ok None.
Proof.
  induction sheets as [|s sheets IH]; intros H; simpl; [reflexivity|].
  destruct (H s (or_introl eq_refl)) as [H1 H2].
  destruct (title s) as [t|]; [|contradiction].
  destruct (title_is t sheet_name) eqn:E.
  - exfalso. destruct sheet_name as [n|]; [|discriminate].
    apply title_is_some in E. contradiction.
  - apply IH. intros s' Hs'. apply H. now right.
Qed.

Lemma find_sheet_id_first l1 s l2 name id :
  (forall s', In s' l1 -> title s' <> None /\ title s' <> Some name) ->
  title s = Some name -> sheetId s = Some id ->
  find_sheet_id (l1 ++ s :: l2) (Some name) = Ok (Some id).
Proof.
  intros H Ht Hi. induction l1 as [|s' l1 IH]; simpl.
  - rewrite Ht, Hi.
    replace (str_eqb name name) with true
      by (symmetry; now apply str_eqb_eq).
    reflexivity.
  - destruct (H s' (or_introl eq_refl)) as [H1 H2].
    destruct (title s') as [t|]; [|contradiction].
    destruct (str_eqb t name) eqn:E.
    + apply str_eqb_eq in E. congruence.
    + apply IH. intros x Hx. apply H. now right.
Qed.

Lemma find_sheet_id_cases sheets name :
  (forall s, In s sheets -> title s <> None /\ sheetId s <> None) ->
  (find_sheet_id sheets (Some name) = Ok None
   /\ forall s, In s sheets -> title s <> Some name)
  \/ exists l1 s l2 id,
       sheets = l1 ++ s :: l2
       /\ (forall s', In s' l1 -> title s' <> Some name)
       /\ title s = Some name /\ sheetId s = Some id
       /\ find_sheet_id sheets (Some name) = Ok (Some id).
Proof.
  induction sheets as [|s sheets IH]; intros WF.
  - left. split; [reflexivity|]. intros s [].
  - destruct (WF s (or_introl eq_refl)) as [W1 W2].
    destruct (title s) as [t|] eqn:Et; [|contradiction].
    destruct (sheetId s) as [id|] eqn:Ei; [|contradiction].
    destruct (str_eqb t name) eqn:E.
    + right. apply str_eqb_eq in E. subst t.
      exists [], s, sheets, id. simpl. rewrite Et, Ei.
      replace (str_eqb name name) with true
        by (symmetry; now apply str_eqb_eq).
      repeat split; auto.
    + assert (N : Some t <> Some name).
      { intros C. inversion C; subst.
        assert (str_eqb name name = true) by now apply str_eqb_eq.
        congruence. }
      destruct IH as [[F A]|(l1 & s0 & l2 & id0 & -> & A & T & I & F)].
      * intros x Hx. apply WF. now right.
      * left. split.
        -- simpl. now rewrite Et, E.
        -- intros x [<-|Hx]; [now rewrite Et|now apply A].
      * right. exists (s :: l1), s0, l2, id0.
        split; [reflexivity|]. split.
        -- intros x [<-|Hx]; [now rewrite Et|now apply A].
        -- repeat split; auto. simpl. now rewrite Et, E.
Qed.

(** X12.  On a list of sheets that all have a title and an id, the lookup
    of the mutation tools raises "sheet not found" exactly when no sheet
    has the given title, and it returns an id exactly when that is the
    id of the first sheet with that title. *)
Theorem resolve_sheet_id_first_match sheets name :
  (forall s, In s sheets -> title s <> None /\ sheetId s <> None) ->
  (resolve_sheet_id sheets (Some name) = Raise (SheetNotFound (Some name))
   <-> forall s, In s sheets -> title s <> Some name)
  /\ (forall id,
        resolve_sheet_id sheets (Some name) = Ok id
        <-> exists l1 s l2,
              sheets = l1 ++ s :: l2
              /\ (forall s', In s' l1 -> title s' <> Some name)
              /\ title s = Some name /\ sheetId s = Some id).
Proof.
  intros WF. unfold resolve_sheet_id. split.
  - split.
    + intros H.
      destruct (find_sheet_id_cases sheets name WF)
        as [[F A]|(l1 & s & l2 & id & _ & _ & _ & _ & F)]; [exact A|].
      rewrite F in H. discriminate.
    + intros A. rewrite find_sheet_id_none; [reflexivity|].
      intros s Hs. split; [apply WF; exact Hs|now apply A].
  - intros id. split.
    + intros H.
      destruct (find_sheet_id_cases sheets name WF)
        as [[F A]|(l1 & s & l2 & id' & E & A & T & I & F)];
        rewrite F in H; [discriminate|].
      inversion H; subst id'. now exists l1, s, l2.
    + intros (l1 & s & l2 & -> & A & T & I).
      rewrite (find_sheet_id_first l1 s l2 name id); auto.
      intros s' Hs'. split; [|now apply A].
      apply WF. apply in_or_app. now left.
Qed.

Lemma resolve_sheet_id_first_match_witness :
  resolve_sheet_id
    [mkSheet (Some (py "Data")) (Some 0) [] [];
     mkSheet (Some (py "Notes")) (Some 7) [] []]
    (Some (py "Notes")) = Ok 7.
Proof.
  apply (proj2 (resolve_sheet_id_first_match
                  [mkSheet (Some (py "Data")) (Some 0) [] [];
                   mkSheet (Some (py "Notes")) (Some 7) [] []]
                  (py "Notes")
                  ltac:(intros s [<-|[<-|[]]]; split; discriminate))).
  exists [mkSheet (Some (py "Data")) (Some 0) [] []],
         (mkSheet (Some (py "Notes")) (Some 7) [] []), [].
  repeat split. intros s' [<-|[]]. discriminate.
Defined.

(** X13.  For a range without ['!'] the parser returns no sheet name,
    and no title equals it: when every sheet has a title, the six tools
    that look the sheet up ([merge_cells], [unmerge_cells],
    [create_named_range], [clear_data_validation], [format_cells],
    [add_data_validation]) send no request and raise "sheet not found",
    or the [ValueError] of the parser when a row number has more than
    [max_str_digits] digits. *)
Theorem unqualified_range_is_refused sheets (range_name : str)
        args validation_type validation_config :
  no_bang range_name = true ->
  (forall s, In s sheets -> title s <> None) ->
  let e := if parse_raises range_name then ValueError
           else SheetNotFound None in
  merge_cells sheets range_name = Raised [] e
  /\ unmerge_cells sheets range_name = Raised [] e
  /\ create_named_range sheets range_name = Raised [] e
  /\ clear_data_validation sheets range_name = Raised [] e
  /\ format_cells sheets range_name args = Raised [] e
  /\ add_data_validation sheets range_name validation_type validation_config
     = Raised [] e.
Proof.
  intros Hb Ht e. subst e.
  unfold merge_cells, unmerge_cells, create_named_range, clear_data_validation,
    format_cells, add_data_validation, parse_a1.
  destruct (parse_raises range_name); [repeat split; reflexivity|].
  rewrite (parse_sheetless _ Hb). unfold resolve_sheet_id.
  rewrite find_sheet_id_none; [repeat split; reflexivity|].
  intros s Hs. split; [now apply Ht|].
  intros C. apply (Ht s Hs). exact C.
Qed.

Lemma unqualified_range_is_refused_witness :
  merge_cells [mkSheet (Some (py "Sheet1")) (Some 0) [] []] (py "A1:B2")
  = Raised [] (SheetNotFound None)
  /\ format_cells [mkSheet (Some (py "Sheet1")) (Some 0) [] []] (py "A1:B2")
                  (mkFormatArgs true false false false false false)
     = Raised [] (SheetNotFound None).
Proof.
  pose proof (unqualified_range_is_refused
                [mkSheet (Some (py "Sheet1")) (Some 0) [] []] (py "A1:B2")
                (mkFormatArgs true false false false false false)
                (py "CHECKBOX") (mkValidationConfig None None None None None)
                eq_refl
                ltac:(intros s [<-|[]]; discriminate)) as H.
  split; [exact (proj1 H)|exact (proj1 (proj2 (proj2 (proj2 (proj2 H)))))].
Defined.

(** X14.  When the sheet exists but the text after the ['!'] does not
    start with a letter A-Z, the request still goes out, with the four
    bounds [None]: [unmerge_cells], [create_named_range] and
    [clear_data_validation] then return their success message, and
    [merge_cells] raises [TypeError] after the request was sent. *)
Theorem unparsed_span_is_still_sent sheets (sheet span : str) (id : Z) :
  no_bang sheet = true ->
  resolve_sheet_id sheets (Some sheet) = Ok id ->
  heads Re.is_upper span = false ->
  let sent := [mkRequestRange id None None None None] in
  unmerge_cells sheets (sheet ++ py "!" ++ span) = Returned sent tt
  /\ create_named_range sheets (sheet ++ py "!" ++ span) = Returned sent tt
  /\ clear_data_validation sheets (sheet ++ py "!" ++ span) = Returned sent tt
  /\ merge_cells sheets (sheet ++ py "!" ++ span) = Raised sent TypeError.
Proof.
  intros Hb Hr Hu sent.
  assert (P : parse_range span = None).
  { apply parse_range_none. unfold scan_cell.
    assert (T : take Re.is_upper span = None) by now apply take_none.
    now rewrite T. }
  assert (E : parse_a1 (sheet ++ py "!" ++ span) = Ok (Some sheet, None)).
  { rewrite parse_a1_ok.
    - rewrite <- P. f_equal. now apply parse_with_sheet.
    - rewrite parse_raises_scan.
      change (py "!" ++ span) with (33 :: span).
      rewrite split_sheet_first by exact Hb. cbn [snd].
      apply parse_range_none in P. unfold scan_range. now rewrite P. }
  unfold unmerge_cells, create_named_range, clear_data_validation, merge_cells.
  rewrite E, Hr. repeat split; reflexivity.
Qed.

Lemma unparsed_span_is_still_sent_witness :
  unmerge_cells [mkSheet (Some (py "Sheet1")) (Some 0) [] []]
                (py "Sheet1" ++ py "!" ++ py "a1:b2")
  = Returned [mkRequestRange 0 None None None None] tt.
Proof.
  apply (unparsed_span_is_still_sent
           [mkSheet (Some (py "Sheet1")) (Some 0) [] []]
           (py "Sheet1") (py "a1:b2") 0); reflexivity.
Defined.

(** * Properties of the text steps of [add_data_validation] *)

Lemma str_split_nonempty sep s : str_split sep s <> [].
Proof.
  destruct s as [|c s]; simpl; [discriminate|].
  destruct (c =? sep); [discriminate|].
  destruct (str_split sep s); discriminate.
Qed.

Lemma str_split_app sep a b :
  str_split sep (a ++ sep :: b) = str_split sep a ++ str_split sep b.
Proof.
  induction a as [|c a IH]; simpl.
  - now rewrite Z.eqb_refl.
  - destruct (c =? sep); [now rewrite IH|].
    rewrite IH. pose proof (str_split_nonempty sep a) as N.
    destruct (str_split sep a); [contradiction|reflexivity].
Qed.

Lemma str_split_no_sep sep s : contains sep s = false -> str_split sep s = [s].
Proof.
  unfold contains. induction s as [|c s IH]; simpl; [reflexivity|].
  intros H. apply orb_false_iff in H as [H1 H2].
  rewrite Z.eqb_sym, H1, (IH H2). reflexivity.
Qed.

Lemma last_app_nonempty {A} (l1 l2 : list A) d :
  l2 <> [] -> last (l1 ++ l2) d = last l2 d.
Proof.
  intros H. induction l1 as [|x l1 IH]; [reflexivity|].
  simpl. destruct (l1 ++ l2) eqn:E; [|exact IH].
  apply app_eq_nil in E. destruct E. contradiction.
Qed.

Lemma contains_app c a b : contains c (a ++ b) = contains c a || contains c b.
Proof. apply existsb_app. Qed.

Lemma last_occurrence sep s :
  contains sep s = true ->
  exists a b, s = a ++ sep :: b /\ contains sep b = false.
Proof.
  unfold contains. induction s as [|c s IH]; simpl; [discriminate|].
  intros H. destruct (existsb (Z.eqb sep) s) eqn:E.
  - destruct (IH eq_refl) as (a & b & -> & Hb). now exists (c :: a), b.
  - rewrite orb_false_r in H. apply Z.eqb_eq in H. subst c.
    now exists [], s.
Qed.

(** [s.split(sep)[-1]] is the whole text when [sep] does not occur, and
    otherwise the text after the last [sep]. *)
Lemma last_piece_cases sep s :
  (contains sep s = false /\ last (str_split sep s) [] = s)
  \/ exists a b, s = a ++ sep :: b /\ contains sep b = false
                 /\ last (str_split sep s) [] = b.
Proof.
  destruct (contains sep s) eqn:E.
  - right. destruct (last_occurrence sep s E) as (a & b & -> & Hb).
    exists a, b. repeat split; auto.
    rewrite str_split_app, last_app_nonempty by apply str_split_nonempty.
    now rewrite str_split_no_sep.
  - left. split; [reflexivity|]. now rewrite str_split_no_sep.
Qed.

(** X15.  For a range text with a [':'] whose part after the last [':']
    holds no ['!'], the cell that the TEXT_LENGTH formula refers to is
    that last part: the second corner of the range, not the first. *)
Theorem first_cell_is_the_last_corner (a b : str) :
  contains 58 b = false -> contains 33 b = false ->
  first_cell (a ++ py ":" ++ b) = b.
Proof.
  intros H1 H2. unfold first_cell.
  change (a ++ py ":" ++ b) with (a ++ 58 :: b).
  replace (contains 58 (a ++ 58 :: b)) with true
    by (rewrite contains_app; simpl; now rewrite orb_true_r).
  rewrite str_split_app, last_app_nonempty by apply str_split_nonempty.
  rewrite str_split_no_sep by assumption. simpl. now rewrite H2.
Qed.

Lemma first_cell_is_the_last_corner_witness :
  first_cell (py "Sheet1!A1" ++ py ":" ++ py "A10") = py "A10".
Proof.
  apply (first_cell_is_the_last_corner (py "Sheet1!A1") (py "A10"));
    reflexivity.
Defined.

(** X16.  The cell that the TEXT_LENGTH formula refers to is always the
    end of the range text, and it holds neither [':'] nor ['!']. *)
Theorem first_cell_is_a_clean_suffix (range_name : str) :
  (exists prefix, range_name = prefix ++ first_cell range_name)
  /\ contains 58 (first_cell range_name) = false
  /\ contains 33 (first_cell range_name) = false.
Proof.
  unfold first_cell.
  set (fc := if contains 58 range_name
             then last (str_split 58 range_name) [] else range_name).
  assert (F : (exists p, range_name = p ++ fc) /\ contains 58 fc = false).
  { unfold fc.
    destruct (last_piece_cases 58 range_name)
      as [[E L]|(a & b & E & Hb & L)].
    - rewrite E. split; [now exists []|exact E].
    - replace (contains 58 range_name) with true
        by (rewrite E, contains_app; simpl; now rewrite orb_true_r).
      rewrite L. split; [|exact Hb]. exists (a ++ [58]).
      now rewrite <- app_assoc. }
  destruct F as [[p Ep] Fc].
  destruct (last_piece_cases 33 fc) as [[E L]|(a & b & E & Hb & L)].
  - rewrite E. repeat split; auto. now exists p.
  - replace (contains 33 fc) with true
      by (rewrite E, contains_app; simpl; now rewrite orb_true_r).
    rewrite L. repeat split; auto.
    + exists (p ++ a ++ [33]). rewrite Ep, E.
      now rewrite <- !app_assoc.
    + rewrite E, contains_app in Fc. apply orb_false_iff in Fc as [_ Fc].
      simpl in Fc. exact Fc.
Qed.

(** X17.  The source text of a LIST validation always starts with ['=']
    and holds a ['!'], and preparing an already prepared text changes
    nothing. *)
Theorem list_source_range_is_prepared (sheet_name source_range : str) :
  startswith 61 (list_source_range sheet_name source_range) = true
  /\ contains 33 (list_source_range sheet_name source_range) = true
  /\ list_source_range sheet_name (list_source_range sheet_name source_range)
     = list_source_range sheet_name source_range.
Proof.
  assert (K : forall s, startswith 61 s = true -> contains 33 s = true ->
                        list_source_range sheet_name s = s).
  { intros s A B. unfold list_source_range. rewrite B. simpl. now rewrite A. }
  assert (P : startswith 61 (list_source_range sheet_name source_range) = true
              /\ contains 33 (list_source_range sheet_name source_range) = true).
  { unfold list_source_range.
    set (s1 := if negb (contains 33 source_range)
               then sheet_name ++ py "!" ++ source_range else source_range).
    assert (B : contains 33 s1 = true).
    { unfold s1. destruct (contains 33 source_range) eqn:E; simpl; [exact E|].
      rewrite contains_app. simpl. now rewrite orb_true_r. }
    destruct (startswith 61 s1) eqn:A; simpl.
    - now split.
    - split; [reflexivity|]. exact B. }
  destruct P as [A B]. repeat split; auto.
Qed.

(** X18.  A source range that is given with its ['='] but without a
    sheet name gets the sheet name in front of the ['=']: the text
    becomes ['='] + sheet name + ["!="] + the rest, for a sheet name that
    does not itself start with ['=']. *)
Theorem list_source_range_keeps_inner_equals (sheet_name rest : str) :
  contains 33 rest = false -> startswith 61 sheet_name = false ->
  list_source_range sheet_name (py "=" ++ rest)
  = py "=" ++ sheet_name ++ py "!" ++ py "=" ++ rest.
Proof.
  intros H1 H2. unfold list_source_range.
  replace (contains 33 (py "=" ++ rest)) with false
    by (symmetry; simpl; exact H1).
  simpl negb. cbv iota.
  destruct sheet_name as [|c n]; [reflexivity|].
  simpl in H2. simpl. now rewrite H2.
Qed.

Lemma list_source_range_keeps_inner_equals_witness :
  list_source_range (py "Sheet1") (py "=" ++ py "A1:A10")
  = py "=" ++ py "Sheet1" ++ py "!" ++ py "=" ++ py "A1:A10".
Proof.
  apply (list_source_range_keeps_inner_equals (py "Sheet1") (py "A1:A10"));
    reflexivity || discriminate.
Defined.

(** * Properties of [clear_conditional_formatting] *)

Lemma delete_each_spec sheet_id cfs requests n :
  delete_each sheet_id cfs requests n
  = (requests ++ repeat (mkDeleteRule sheet_id 0) (List.length cfs),
     n + Z.of_nat (List.length cfs)).
Proof.
  revert requests n. induction cfs as [|cf cfs IH]; intros requests n.
  - simpl. rewrite app_nil_r. f_equal. lia.
  - cbn [delete_each List.length repeat]. rewrite IH, <- app_assoc.
    f_equal. lia.
Qed.

Lemma clear_loop_spec sheets sheet_name requests n :
  clear_loop sheets sheet_name requests n
  = (requests ++ flat_map delete_requests (filter (is_target sheet_name) sheets),
     n + Z.of_nat (List.length
                     (flat_map delete_requests
                               (filter (is_target sheet_name) sheets)))).
Proof.
  revert requests n. induction sheets as [|s sheets IH]; intros requests n.
  - simpl. rewrite app_nil_r. f_equal. lia.
  - cbn [clear_loop filter].
    change (is_target sheet_name s)
      with (negb (name_given sheet_name
                  && negb (opt_str_eqb (title s) sheet_name))).
    destruct (name_given sheet_name && negb (opt_str_eqb (title s) sheet_name)).
    + simpl negb. cbv iota. apply IH.
    + simpl negb. cbv iota. rewrite delete_each_spec, IH.
      cbn [flat_map]. rewrite length_app, <- app_assoc.
      assert (L : List.length (delete_requests s)
                  = List.length (conditionalFormats s))
        by apply repeat_length.
      rewrite L. f_equal. lia.
Qed.

(** X19.  [clear_conditional_formatting] asks for one deletion at index
    0 per rule of every sheet it does not skip, sheet after sheet, and
    the number it reports is the number of requests; it sends nothing and
    reports that no rule was found exactly when those sheets have no
    rule, and it never sends an empty list of requests. *)
Theorem clear_requests_one_per_rule sheets sheet_name :
  let requests :=
    flat_map delete_requests (filter (is_target sheet_name) sheets) in
  clear_conditional_formatting sheets sheet_name
  = match requests with
    | [] => NoRulesFound
    | _ :: _ => ClearedRules requests (Z.of_nat (List.length requests))
    end
  /\ (clear_conditional_formatting sheets sheet_name = NoRulesFound
      <-> forall s, In s sheets -> is_target sheet_name s = true ->
                    conditionalFormats s = [])
  /\ (forall sent n,
        clear_conditional_formatting sheets sheet_name = ClearedRules sent n ->
        sent = requests /\ sent <> [] /\ n = Z.of_nat (List.length sent)
        /\ exists s, In s sheets /\ is_target sheet_name s = true
                     /\ conditionalFormats s <> []).
Proof.
  intros requests.
  assert (E : clear_conditional_formatting sheets sheet_name
              = match requests with
                | [] => NoRulesFound
                | _ :: _ => ClearedRules requests (Z.of_nat (List.length requests))
                end).
  { unfold clear_conditional_formatting. rewrite clear_loop_spec.
    cbn [app Z.add]. fold requests. now destruct requests. }
  assert (N : requests = [] <->
              forall s, In s sheets -> is_target sheet_name s = true ->
                        conditionalFormats s = []).
  { split.
    - intros R s Hs Ht.
      assert (I : In s (filter (is_target sheet_name) sheets))
        by (apply filter_In; now split).
      destruct (conditionalFormats s) as [|cf cfs] eqn:C; [reflexivity|].
      exfalso.
      assert (J : In (mkDeleteRule (sheetId s) 0) requests).
      { apply in_flat_map. exists s. split; [exact I|].
        unfold delete_requests. rewrite C. now left. }
      rewrite R in J. exact J.
    - intros H. destruct requests as [|rq rqs] eqn:R; [reflexivity|].
      exfalso.
      assert (J : In rq requests) by (rewrite R; now left).
      apply in_flat_map in J as (s & I & J).
      apply filter_In in I as [Hs Ht].
      unfold delete_requests in J. rewrite (H s Hs Ht) in J. exact J. }
  split; [exact E|]. split.
  - rewrite E, <- N. destruct requests; split; congruence.
  - intros sent n H. rewrite E in H.
    destruct requests as [|rq rqs] eqn:R; [discriminate|].
    injection H as <- <-.
    split; [reflexivity|]. split; [discriminate|]. split; [reflexivity|].
    assert (J : In rq requests) by (rewrite R; now left).
    apply in_flat_map in J as (s & I & J).
    apply filter_In in I as [Hs Ht].
    exists s. split; [exact Hs|]. split; [exact Ht|].
    intros C. unfold delete_requests in J. rewrite C in J. exact J.
Qed.

(** X20.  Without a sheet name, and also with the empty name, no sheet is
    skipped: the requests cover the rules of all the sheets. *)
Theorem clear_without_name_covers_all_sheets sheets sheet_name :
  name_given sheet_name = false ->
  clear_conditional_formatting sheets sheet_name
  = clear_conditional_formatting sheets None
  /\ fst (clear_loop sheets sheet_name [] 0) = flat_map delete_requests sheets.
Proof.
  intros H.
  assert (F : forall n, name_given n = false ->
                        filter (is_target n) sheets = sheets).
  { intros n Hn. induction sheets as [|s sheets IH]; [reflexivity|].
    simpl. unfold is_target at 1. rewrite Hn. simpl. now rewrite IH. }
  unfold clear_conditional_formatting.
  rewrite !clear_loop_spec, (F sheet_name H), (F None eq_refl).
  split; reflexivity.
Qed.

Lemma clear_without_name_covers_all_sheets_witness :
  clear_conditional_formatting
    [mkSheet (Some (py "A")) (Some 0) [] [[]; []];
     mkSheet (Some (py "B")) (Some 5) [] [[]]] (Some [])
  = clear_conditional_formatting
      [mkSheet (Some (py "A")) (Some 0) [] [[]; []];
       mkSheet (Some (py "B")) (Some 5) [] [[]]] None.
Proof.
  apply (clear_without_name_covers_all_sheets
           [mkSheet (Some (py "A")) (Some 0) [] [[]; []];
            mkSheet (Some (py "B")) (Some 5) [] [[]]] (Some [])).
  reflexivity.
Defined.

Lemma opt_str_eqb_eq a b : opt_str_eqb a b = true <-> a = b.
Proof.
  destruct a as [x|], b as [y|]; simpl; try (split; congruence).
  rewrite str_eqb_eq. split; congruence.
Qed.

(** X21.  With a non-empty sheet name, every request is for a sheet of
    that title, names its id and deletes at index 0. *)
Theorem clear_with_name_only_touches_that_sheet sheets (name : str) requests n :
  name <> [] ->
  clear_conditional_formatting sheets (Some name) = ClearedRules requests n ->
  forall rq, In rq requests ->
    exists s, In s sheets /\ title s = Some name
              /\ dr_sheetId rq = sheetId s /\ dr_index rq = 0.
Proof.
  intros Hn H rq Hrq.
  assert (A : requests
              = flat_map delete_requests (filter (is_target (Some name)) sheets)).
  { unfold clear_conditional_formatting in H. rewrite clear_loop_spec in H.
    cbn [app] in H.
    destruct (flat_map delete_requests (filter (is_target (Some name)) sheets));
      [discriminate|]. now inversion H. }
  subst requests.
  apply in_flat_map in Hrq as (s & Hs & Hr).
  apply filter_In in Hs as [Hs Ht].
  exists s. split; [exact Hs|].
  unfold is_target in Ht.
  assert (G : name_given (Some name) = true)
    by (destruct name; [contradiction|reflexivity]).
  rewrite G in Ht. simpl in Ht. apply negb_true_iff, negb_false_iff in Ht.
  apply opt_str_eqb_eq in Ht. split; [exact Ht|].
  unfold delete_requests in Hr. apply repeat_spec in Hr. subst rq.
  split; reflexivity.
Qed.

Lemma clear_with_name_only_touches_that_sheet_witness :
  exists s,
    In s [mkSheet (Some (py "A")) (Some 0) [] [[]; []];
          mkSheet (Some (py "B")) (Some 5) [] [[]]]
    /\ title s = Some (py "B")
    /\ dr_sheetId (mkDeleteRule (Some 5) 0) = sheetId s
    /\ dr_index (mkDeleteRule (Some 5) 0) = 0.
Proof.
  apply (clear_with_name_only_touches_that_sheet
           [mkSheet (Some (py "A")) (Some 0) [] [[]; []];
            mkSheet (Some (py "B")) (Some 5) [] [[]]]
           (py "B") [mkDeleteRule (Some 5) 0] 1).
  - discriminate.
  - reflexivity.
  - now left.
Defined.

(** * Properties of the data preview of [get_spreadsheet_info] *)

(** The scan from the row numbered [k] on, started in the state [st]. *)
Lemma scan_count rows k st :
  non_empty_rows
    (fold_left preview_step (combine (seq k (List.length rows)) rows) st)
  = non_empty_rows st + Z.of_nat (List.length (filter row_has_data rows)).
Proof.
  revert k st. induction rows as [|row rows IH]; intros k st.
  - simpl. lia.
  - cbn [List.length seq combine fold_left filter]. rewrite IH.
    unfold preview_step at 1. cbn [snd fst].
    destruct (row_has_data row); cbn [non_empty_rows List.length]; lia.
Qed.

Lemma scan_first_kept rows k st :
  first_row_with_data st <> -1 ->
  first_row_with_data
    (fold_left preview_step (combine (seq k (List.length rows)) rows) st)
  = first_row_with_data st.
Proof.
  revert k st. induction rows as [|row rows IH]; intros k st H.
  - reflexivity.
  - cbn [List.length seq combine fold_left].
    assert (E : first_row_with_data (preview_step st (k, row))
                = first_row_with_data st).
    { unfold preview_step. cbn [snd fst].
      destruct (row_has_data row); [|reflexivity].
      cbn [first_row_with_data].
      destruct (first_row_with_data st =? -1) eqn:C; [|reflexivity].
      apply Z.eqb_eq in C. contradiction. }
    rewrite IH; rewrite E; auto.
Qed.

Lemma scan_no_data rows k st :
  (forall r, In r rows -> row_has_data r = false) ->
  fold_left preview_step (combine (seq k (List.length rows)) rows) st = st.
Proof.
  revert k st. induction rows as [|row rows IH]; intros k st H.
  - reflexivity.
  - cbn [List.length seq combine fold_left].
    unfold preview_step at 2. cbn [snd fst].
    rewrite (H row (or_introl eq_refl)). apply IH.
    intros r Hr. apply H. now right.
Qed.

Lemma scan_first_found l1 row l2 k st :
  first_row_with_data st = -1 ->
  (forall r, In r l1 -> row_has_data r = false) ->
  row_has_data row = true ->
  first_row_with_data
    (fold_left preview_step
               (combine (seq k (List.length (l1 ++ row :: l2))) (l1 ++ row :: l2))
               st)
  = Z.of_nat (k + List.length l1).
Proof.
  revert k st. induction l1 as [|r l1 IH]; intros k st Hs H1 Hr.
  - cbn [app List.length seq combine fold_left].
    rewrite scan_first_kept.
    + unfold preview_step. cbn [snd fst]. rewrite Hr. cbn [first_row_with_data].
      rewrite Hs, Z.eqb_refl. cbn [List.length]. f_equal. lia.
    + unfold preview_step. cbn [snd fst]. rewrite Hr. cbn [first_row_with_data].
      rewrite Hs, Z.eqb_refl. lia.
  - cbn [app List.length seq combine fold_left].
    unfold preview_step at 2. cbn [snd fst].
    rewrite (H1 r (or_introl eq_refl)).
    rewrite IH;
      [cbn [List.length]; f_equal; lia
      |exact Hs
      |intros x Hx; apply H1; now right
      |exact Hr].
Qed.

Lemma first_true_split {A} (f : A -> bool) l :
  (forall x, In x l -> f x = false)
  \/ exists l1 x l2,
       l = l1 ++ x :: l2 /\ (forall y, In y l1 -> f y = false) /\ f x = true.
Proof.
  induction l as [|x l IH].
  - left. intros x [].
  - destruct (f x) eqn:E.
    + right. exists [], x, l. repeat split; auto. intros y [].
    + destruct IH as [H|(l1 & y & l2 & -> & H1 & H2)].
      * left. intros z [<-|Hz]; auto.
      * right. exists (x :: l1), y, l2. repeat split; auto.
        intros z [<-|Hz]; auto.
Qed.

(** X22.  After the scan of the preview rows, [non_empty_rows] is the
    number of rows that hold a cell with text; [first_row_with_data] is
    -1 when there is none, and otherwise the index of the first such
    row. *)
Theorem preview_scan_finds_first_row (values : list (list str)) :
  non_empty_rows (preview_scan values)
  = Z.of_nat (List.length (filter row_has_data values))
  /\ ((forall r, In r values -> row_has_data r = false)
      /\ first_row_with_data (preview_scan values) = -1
      \/ exists l1 row l2,
           values = l1 ++ row :: l2
           /\ (forall r, In r l1 -> row_has_data r = false)
           /\ row_has_data row = true
           /\ first_row_with_data (preview_scan values)
              = Z.of_nat (List.length l1)).
Proof.
  unfold preview_scan, enumerate. split.
  - now rewrite scan_count.
  - destruct (first_true_split row_has_data values)
      as [H|(l1 & row & l2 & -> & H1 & H2)].
    + left. split; [exact H|]. now rewrite scan_no_data.
    + right. exists l1, row, l2. repeat split; auto.
      now rewrite scan_first_found.
Qed.

Lemma fold_max_bound rest x lo hi :
  lo <= x <= hi -> (forall y, In y rest -> lo <= y <= hi) ->
  lo <= fold_left Z.max rest x <= hi.
Proof.
  revert x. induction rest as [|y rest IH]; intros x Hx H; [exact Hx|].
  cbn [fold_left]. apply IH.
  - pose proof (H y (or_introl eq_refl)). lia.
  - intros z Hz. apply H. now right.
Qed.

Lemma last_data_col_bound row :
  0 <= last_data_col row <= Z.max 0 (Z.of_nat (List.length row) - 1).
Proof.
  unfold last_data_col, max_default.
  set (l := map (fun jc : nat * str => Z.of_nat (fst jc))
                (filter (fun jc : nat * str => has_text (snd jc))
                        (enumerate row))).
  assert (B : forall y, In y l -> 0 <= y <= Z.of_nat (List.length row) - 1).
  { intros y Hy. unfold l in Hy. apply in_map_iff in Hy as ([j c] & <- & Hj).
    apply filter_In in Hj as [Hj _]. unfold enumerate in Hj.
    apply in_combine_l in Hj. apply in_seq in Hj. cbn [fst]. lia. }
  destruct l as [|x rest]; [lia|].
  pose proof (B x (or_introl eq_refl)) as Bx.
  apply fold_max_bound.
  - lia.
  - intros y Hy. specialize (B y (or_intror Hy)). lia.
Qed.

Lemma scan_max_col rows k st w :
  0 <= max_col_with_data st < w ->
  (forall r, In r rows -> Z.of_nat (List.length r) <= w) ->
  0 <= max_col_with_data
         (fold_left preview_step (combine (seq k (List.length rows)) rows) st)
    < w.
Proof.
  revert k st. induction rows as [|row rows IH]; intros k st Hs H.
  - exact Hs.
  - cbn [List.length seq combine fold_left]. apply IH.
    + unfold preview_step. cbn [snd fst].
      destruct (row_has_data row); [|exact Hs]. cbn [max_col_with_data].
      pose proof (last_data_col_bound row) as B.
      pose proof (H row (or_introl eq_refl)) as W. lia.
    + intros r Hr. apply H. now right.
Qed.

(** X23.  When no preview row has more than 26 cells (the preview asks
    for the columns A to Z), [max_col_with_data] stays between 0 and 25,
    so that the letter written after "Columns with data: A to" is one of
    A-Z. *)
Theorem preview_last_column_is_a_letter (values : list (list str)) :
  (forall r, In r values -> (List.length r <= 26)%nat) ->
  0 <= max_col_with_data (preview_scan values) <= 25
  /\ exists c,
       chr (65 + max_col_with_data (preview_scan values)) = Some c
       /\ Re.is_upper c = true.
Proof.
  intros H.
  assert (B : 0 <= max_col_with_data (preview_scan values) < 26).
  { unfold preview_scan, enumerate. apply scan_max_col.
    - cbn. lia.
    - intros r Hr. specialize (H r Hr). lia. }
  split; [lia|].
  exists (65 + max_col_with_data (preview_scan values)). split.
  - apply chr_in_range. lia.
  - unfold Re.is_upper. lia.
Qed.

Lemma preview_last_column_is_a_letter_witness :
  0 <= max_col_with_data (preview_scan [[py "x"; py " "; py "y"]; []]) <= 25
  /\ exists c,
       chr (65 + max_col_with_data (preview_scan [[py "x"; py " "; py "y"]; []]))
       = Some c
       /\ Re.is_upper c = true.
Proof.
  apply (preview_last_column_is_a_letter [[py "x"; py " "; py "y"]; []]).
  intros r [<-|[<-|[]]]; simpl; lia.
Defined.

(** * Properties of the lines of [read_sheet_values] *)

Lemma rows_loop_length parsed regions first total rows i acc :
  (List.length acc <= 60)%nat ->
  (List.length (rows_loop parsed regions first total rows i acc) <= 62)%nat.
Proof.
  revert i acc. induction rows as [|row rows IH]; intros i acc H.
  - simpl. lia.
  - cbn [rows_loop].
    set (acc' := acc ++ [DataRow i (pad_row first row)
                                 (merge_annotations_of parsed regions i)]).
    assert (L : List.length acc' = S (List.length acc))
      by (unfold acc'; rewrite length_app; simpl; lia).
    destruct (60 <? Z.of_nat (List.length acc')) eqn:E.
    + rewrite length_app. simpl. lia.
    + apply Z.ltb_ge in E. apply IH. lia.
Qed.

Lemma merge_lines_length regions : (List.length (merge_lines regions) <= 13)%nat.
Proof.
  unfold merge_lines. destruct regions as [|m regions]; [simpl; lia|].
  rewrite !length_app, length_map, length_firstn.
  pose proof (Nat.le_min_l 10 (List.length (m :: regions))).
  destruct (10 <? Z.of_nat (List.length (m :: regions)));
    cbn [List.length] in *; lia.
Qed.

(** X24.  [read_sheet_values] never lists more than 62 lines, whatever
    the numbers of merges and of rows. *)
Theorem formatted_rows_at_most_62 parsed regions values :
  (List.length (formatted_rows parsed regions values) <= 62)%nat.
Proof.
  unfold formatted_rows. destruct values as [|first rest]; [simpl; lia|].
  apply rows_loop_length. rewrite length_app.
  pose proof (merge_lines_length regions).
  destruct (has_header (first :: rest)); simpl; lia.
Qed.

Lemma rows_loop_data_row parsed regions first total rows k acc i padded ann :
  In (DataRow i padded ann) (rows_loop parsed regions first total rows k acc) ->
  In (DataRow i padded ann) acc
  \/ exists j row,
       nth_error rows j = Some row /\ i = k + Z.of_nat j
       /\ padded = pad_row first row
       /\ ann = merge_annotations_of parsed regions i.
Proof.
  revert k acc. induction rows as [|row rows IH]; intros k acc H.
  - now left.
  - cbn [rows_loop] in H.
    set (line := DataRow k (pad_row first row)
                         (merge_annotations_of parsed regions k)) in *.
    assert (C : In (DataRow i padded ann) (acc ++ [line]) ->
                In (DataRow i padded ann) acc
                \/ exists j row0,
                     nth_error (row :: rows) j = Some row0
                     /\ i = k + Z.of_nat j
                     /\ padded = pad_row first row0
                     /\ ann = merge_annotations_of parsed regions i).
    { intros Hin. apply in_app_or in Hin as [Hin|[Hin|[]]]; [now left|].
      right. unfold line in Hin. inversion Hin; subst.
      exists 0%nat, row. repeat split; auto. simpl. lia. }
    destruct (60 <? Z.of_nat (List.length (acc ++ [line]))).
    + apply in_app_or in H as [H|[H|[]]]; [now apply C|discriminate].
    + apply IH in H as [H|(j & row0 & N & -> & P & A)]; [now apply C|].
      right. exists (S j), row0. repeat split; auto. lia.
Qed.

Lemma merge_lines_no_data_row regions i p a :
  ~ In (DataRow i p a) (merge_lines regions).
Proof.
  unfold merge_lines. destruct regions as [|m regions]; [intros []|].
  rewrite !in_app_iff, in_map_iff.
  intros [[H|[]]|[(x & Hx & _)|[H|[H|[]]]]]; try discriminate.
  destruct (10 <? _); [destruct H as [H|[]]; discriminate|exact H].
Qed.

Lemma pad_row_length first row :
  List.length (pad_row first row)
  = Nat.max (List.length first) (List.length row).
Proof.
  unfold pad_row. rewrite length_app, repeat_length. lia.
Qed.

(** X25.  Every data line of [read_sheet_values] for a parsed range is
    numbered [i >= 1] (>= 2 under a header row), shows the row
    [values[i-1]] filled up with empty cells to the width of the first
    row, and is annotated with the A1 texts of exactly the entries of
    [merged_regions] that contain the sheet row [start_row + i - 1]. *)
Theorem data_rows_are_padded_and_annotated
        (r : Indices) regions (values : list (list str)) i padded ann :
  In (DataRow i padded ann) (formatted_rows (Some r) regions values) ->
  exists first row,
    hd_error values = Some first
    /\ 1 <= i /\ (has_header values = true -> 2 <= i)
    /\ nth_error values (Z.to_nat (i - 1)) = Some row
    /\ padded = row ++ repeat [] (List.length first - List.length row)
    /\ List.length padded = Nat.max (List.length first) (List.length row)
    /\ forall a,
         In a ann <->
         exists m, In m regions /\ mr_a1 m = a
                   /\ mr_start_row m <= start_row r + (i - 1) < mr_end_row m.
Proof.
  unfold formatted_rows. destruct values as [|first rest]; [intros []|].
  intros H.
  apply rows_loop_data_row in H as [H|(j & row & N & E & P & A)].
  - exfalso. apply in_app_or in H as [H|H].
    + now apply merge_lines_no_data_row in H.
    + destruct (has_header (first :: rest));
        [destruct H as [H|[H|[]]]; discriminate|exact H].
  - exists first, row. split; [reflexivity|].
    rewrite nth_error_skipn in N.
    split; [lia|]. split.
    + intros Hh. rewrite Hh in E. lia.
    + split.
      * replace (Z.to_nat (i - 1))
          with ((if has_header (first :: rest) then 1 else 0) + j)%nat; [exact N|].
        destruct (has_header (first :: rest)); lia.
      * split; [|split].
        -- rewrite P. unfold pad_row. do 2 f_equal. lia.
        -- rewrite P. apply pad_row_length.
        -- intros a. rewrite A. unfold merge_annotations_of.
           assert (F : forall l,
                     In a (map mr_a1
                             (filter (fun merge =>
                                (mr_start_row merge <=? start_row r + i - 1)
                                && (start_row r + i - 1 <? mr_end_row merge)) l))
                     <-> exists m, In m l /\ mr_a1 m = a
                          /\ mr_start_row m <= start_row r + (i - 1)
                             < mr_end_row m).
           { intros l. rewrite in_map_iff. split.
             - intros (m & Hm & Hf). apply filter_In in Hf as [Hf Hc].
               exists m. repeat split; auto; lia.
             - intros (m & Hm & Ha & Hc). exists m. split; [exact Ha|].
               apply filter_In. split; [exact Hm|]. lia. }
           destruct regions as [|m0 regions]; [|apply F].
           split; [intros []|]. intros (m & [] & _).
Qed.

Lemma data_rows_are_padded_and_annotated_witness :
  exists first row,
    hd_error [[py "h1"; py "h2"]; [py "x"]] = Some first
    /\ 1 <= 2 /\ (has_header [[py "h1"; py "h2"]; [py "x"]] = true -> 2 <= 2)
    /\ nth_error [[py "h1"; py "h2"]; [py "x"]] (Z.to_nat (2 - 1)) = Some row
    /\ [py "x"; []] = row ++ repeat [] (List.length first - List.length row)
    /\ List.length [py "x"; []] = Nat.max (List.length first) (List.length row)
    /\ forall a,
         In a [py "A2:B2"] <->
         exists m, In m [mkMergedRegion 1 2 0 2 (py "A2:B2")] /\ mr_a1 m = a
                   /\ mr_start_row m <= start_row (mkIndices 0 2 0 2) + (2 - 1)
                      < mr_end_row m.
Proof.
  apply (data_rows_are_padded_and_annotated
           (mkIndices 0 2 0 2) [mkMergedRegion 1 2 0 2 (py "A2:B2")]
           [[py "h1"; py "h2"]; [py "x"]] 2 [py "x"; []] [py "A2:B2"]).
  vm_compute. do 5 right. left. reflexivity.
Defined.

(** * Properties of the listing of [list_named_ranges] *)

Lemma opt_Z_eqb_eq a b : opt_Z_eqb a b = true <-> a = b.
Proof.
  destruct a as [x|], b as [y|]; simpl; try (split; congruence).
  rewrite Z.eqb_eq. split; congruence.
Qed.

(** The name that [sheet_id_to_name] keeps for a sheet. *)
Lemma sheet_id_to_name_rev sheets :
  sheet_id_to_name sheets
  = rev (map (fun sheet => (sheetId sheet,
                            match title sheet with
                            | Some t => t
                            | None => py "Unknown"
                            end)) sheets).
Proof.
  unfold sheet_id_to_name, dict_set.
  assert (G : forall l acc,
             fold_left (fun d sheet =>
                          (sheetId sheet,
                           match title sheet with
                           | Some t => t
                           | None => py "Unknown"
                           end) :: d) l acc
             = rev (map (fun sheet => (sheetId sheet,
                                       match title sheet with
                                       | Some t => t
                                       | None => py "Unknown"
                                       end)) l) ++ acc).
  { induction l as [|s l IH]; intros acc; [reflexivity|].
    cbn [fold_left map rev]. rewrite IH, <- app_assoc. reflexivity. }
  rewrite G. apply app_nil_r.
Qed.

Lemma dict_get_skip k (a b : Dict) d :
  (forall e, In e a -> fst e <> k) -> dict_get k (a ++ b) d = dict_get k b d.
Proof.
  induction a as [|[k' v] a IH]; intros H; [reflexivity|].
  cbn [app dict_get]. destruct (opt_Z_eqb k' k) eqn:E.
  - apply opt_Z_eqb_eq in E. exfalso.
    apply (H (k', v) (or_introl eq_refl)). exact E.
  - apply IH. intros e He. apply H. now right.
Qed.

(** X26.  The sheet name that [list_named_ranges] shows for a sheet id is
    the title of the last sheet of the list that has this id ("Unknown"
    when that sheet has no title), and "Unknown" when no sheet has it. *)
Theorem sheet_name_of_id sheets (k : option Z) :
  ((forall s, In s sheets -> sheetId s <> k) ->
   dict_get k (sheet_id_to_name sheets) (py "Unknown") = py "Unknown")
  /\ (forall l1 s l2,
        sheets = l1 ++ s :: l2 -> sheetId s = k ->
        (forall s', In s' l2 -> sheetId s' <> k) ->
        dict_get k (sheet_id_to_name sheets) (py "Unknown")
        = match title s with
          | Some t => t
          | None => py "Unknown"
          end).
Proof.
  rewrite sheet_id_to_name_rev. split.
  - intros H. rewrite <- (app_nil_r (rev _)), dict_get_skip; [reflexivity|].
    intros e He. apply in_rev, in_map_iff in He as (s & <- & Hs).
    now apply H.
  - intros l1 s l2 -> Hk H.
    rewrite map_app, rev_app_distr. cbn [map rev]. rewrite <- app_assoc.
    rewrite dict_get_skip.
    + cbn [app dict_get].
      replace (opt_Z_eqb (sheetId s) k) with true
        by (symmetry; now apply opt_Z_eqb_eq).
      reflexivity.
    + intros e He. apply in_rev, in_map_iff in He as (s' & <- & Hs).
      now apply H.
Qed.

Lemma sheet_name_of_id_witness :
  dict_get (Some 7)
    (sheet_id_to_name [mkSheet (Some (py "Data")) (Some 0) [] [];
                       mkSheet (Some (py "Notes")) (Some 7) [] []])
    (py "Unknown") = py "Notes".
Proof.
  apply (proj2 (sheet_name_of_id
                  [mkSheet (Some (py "Data")) (Some 0) [] [];
                   mkSheet (Some (py "Notes")) (Some 7) [] []] (Some 7))
               [mkSheet (Some (py "Data")) (Some 0) [] []]
               (mkSheet (Some (py "Notes")) (Some 7) [] []) []).
  - reflexivity.
  - reflexivity.
  - intros s' [].
Defined.

Lemma parse_no_sheet s parsed :
  _parse_a1_to_indices s = (None, parsed) -> parse_range s = parsed.
Proof.
  unfold _parse_a1_to_indices, split_sheet.
  destruct (split_once 33 s) as [[a b]|]; intros H; inversion H.
  reflexivity.
Qed.

Lemma parse_a1_add_sheet name a1 parsed :
  no_bang name = true -> parse_a1 a1 = Ok (None, parsed) ->
  parse_a1 (name ++ 33 :: a1) = Ok (Some name, parsed).
Proof.
  intros Hn H. apply parse_a1_inv in H as [R P]. symmetry in P.
  assert (S : split_sheet a1 = (None, a1)).
  { unfold _parse_a1_to_indices in P. unfold split_sheet in *.
    destruct (split_once 33 a1) as [[a b]|]; [discriminate|reflexivity]. }
  rewrite parse_a1_ok.
  - rewrite parse_with_sheet by exact Hn.
    now rewrite (parse_no_sheet _ _ P).
  - unfold parse_raises in *. rewrite split_sheet_first by exact Hn.
    rewrite S in R. exact R.
Qed.

(** X27.  What [list_named_ranges] prints for a named range with
    [0 <= startRow < endRow], [endRow] of at most [max_str_digits] digits,
    and one-letter columns, on a sheet whose shown name holds no ['!'], is
    a range text that the parser reads back, without error, as that name
    and those four bounds. *)
Theorem full_range_parses_back sheets (range_data : NamedRangeData) :
  let g := nr_grid range_data in
  let name := dict_get (nr_sheetId range_data) (sheet_id_to_name sheets)
                       (py "Unknown") in
  0 <= m_start_row g < m_end_row g ->
  m_end_row g < 10 ^ max_str_digits ->
  0 <= m_start_col g < m_end_col g -> m_end_col g <= 26 ->
  no_bang name = true ->
  exists text,
    full_range sheets range_data = Some text
    /\ parse_a1 text
       = Ok (Some name,
             Some (mkIndices (m_start_row g) (m_end_row g)
                             (m_start_col g) (m_end_col g))).
Proof.
  intros g name Hr Hr' Hc Hb Hn.
  destruct (roundtrip_checked (m_start_row g) (m_end_row g)
                              (m_start_col g) (m_end_col g))
    as (a1 & E & P); try lia.
  unfold full_range. fold g. rewrite E. fold name.
  eexists. split; [reflexivity|].
  change (py "!" ++ a1) with (33 :: a1).
  rewrite (parse_a1_add_sheet name a1 _ Hn P). unfold read_back.
  replace (m_start_col g <? 26) with true by (symmetry; apply Z.ltb_lt; lia).
  replace (m_end_col g - 1 <? 26) with true
    by (symmetry; apply Z.ltb_lt; lia).
  do 4 f_equal. lia.
Qed.

Lemma full_range_parses_back_witness :
  exists text,
    full_range [mkSheet (Some (py "Data")) (Some 0) [] []]
               (mkNamedRangeData (Some 0)
                  (mkGridRange (Some 1) (Some 10) (Some 1) (Some 4)))
    = Some text
    /\ parse_a1 text
       = Ok (Some (py "Data"), Some (mkIndices 1 10 1 4)).
Proof.
  apply (full_range_parses_back
           [mkSheet (Some (py "Data")) (Some 0) [] []]
           (mkNamedRangeData (Some 0)
              (mkGridRange (Some 1) (Some 10) (Some 1) (Some 4))));
    try (apply below_limit);
    unfold m_start_row, m_end_row, m_start_col, m_end_col, get;
    cbn [nr_grid startRowIndex endRowIndex startColumnIndex endColumnIndex];
    first [lia | reflexivity].
Defined.
